(** * JobsHub API: authentication core

    A shallow embedding of [src/models/userModel.js] and
    [src/controllers/authController.js], and the properties of the
    authentication subsystem proved over it.

    Conventions of the embedding:
    - a JavaScript value that may be [undefined] is an [option];
    - [Date] values and [Date.now()] are integer milliseconds ([Z]); the
      issued-at field of a decoded token is integer seconds ([Z]);
    - the division [getTime() / 1000] is exact (a rational, [Q]);
    - a JavaScript string is held as its UTF-8 bytes, the way a string
      literal of this file is; its [length] is the number of its UTF-16
      code units ([jsLength]), not the number of its bytes;
    - the collection is the list of its stored records, in natural order;
    - a handler wrapped in [asyncHandler] either answers ([Responded]),
      forwards ([Forward]) or calls [next] with an error ([NextError]); a
      rejected promise or a thrown exception is [next]'s argument;
    - clock readings, random bytes, salts and the outcome of a mail dispatch
      are inputs of the handler that consumes them. *)

From Stdlib Require Import String Ascii List ZArith QArith Bool Lia.
Import ListNotations.

#[local] Close Scope Q_scope.
#[local] Open Scope string_scope.
#[local] Open Scope Z_scope.

(** ** Data model *)

Definition ObjectId := string.

(** [role: { type: String, enum: ["user", "admin"], default: "user" }] *)
Inductive Role := user | admin.

(** The paths of [userSchema]. *)
Inductive Path :=
| P_name | P_email | P_password | P_passwordConfirm | P_role
| P_passwordChangedAt | P_passwordResetToken | P_passwordResetExpires.

(** A user record, stored or in memory. *)
Record User := mkUser {
  _id : ObjectId;
  name : option string;
  email : option string;
  password : option string;
  passwordConfirm : option string;
  role : Role;
  passwordChangedAt : option Z;
  passwordResetToken : option string;
  passwordResetExpires : option Z
}.

(** The collection behind the [User] model. *)
Definition DB := list User.

(** A hydrated Mongoose document: its fields, whether it has been inserted
    yet, the paths assigned since it was loaded, and whether the
    [select: false] path [password] was projected in. *)
Record Doc := mkDoc {
  fields : User;
  isNew : bool;
  modified : list Path;
  passwordSelected : bool
}.

(** What a handler can pass to [next] or reject with. *)
Inductive Error :=
| AppError (message : string) (statusCode : Z)
| ValidationError (paths : list Path)
| DuplicateKey
| JsonWebTokenError
| IllegalArguments
| TypeError.

(** The JSON envelope of a response. *)
Record Body := mkBody {
  status : string;
  token : option string;
  body_user : option User;
  body_message : option string
}.

Inductive Outcome :=
| Responded (code : Z) (body : Body)
| Forward (reqUser : User)
| NextError (e : Error).

(** A decoded session token: [decoded.id] and [decoded.iat]. *)
Record Decoded := mkDecoded { id : ObjectId; iat : Z }.

(** The libraries and utilities the two files call: [crypto], [bcryptjs],
    [jsonwebtoken], [validator], [String.prototype.toLowerCase] and
    [utilities/createToken]. *)
Record Externals := mkExternals {
  sha256_hex : string -> string;
  bcrypt_hash : string -> string -> string;
  bcrypt_compare : string -> string -> bool;
  jwt_verify : string -> Z -> option Decoded;
  createToken : Z -> ObjectId -> string;
  isEmail : string -> bool;
  toLowerCase : string -> string
}.

(** ** Error names of the specification, as the code raises them *)

Definition MissingCredentials : Error :=
  AppError "Please provide valid email and password." 400.
Definition InvalidCredentials : Error :=
  AppError "Invalid email or password" 401.
Definition Unauthenticated : Error :=
  AppError "You are not logged in! Please log in to get access." 401.
Definition UserGone : Error :=
  AppError "The user belonging to this token no longer exists." 401.
Definition StalePassword : Error :=
  AppError "User recently changed the password! Please log in again." 401.
Definition NotFound : Error :=
  AppError "There is no user with this email address." 404.
Definition DeliveryError : Error :=
  AppError "There was an error sending the email. Please try again later." 503.
Definition InvalidOrExpiredToken : Error :=
  AppError "Token is invalid or has expired. Please request a new password reset." 400.
Definition IncorrectCurrentPassword : Error :=
  AppError "Your current password is incorrect" 401.

(** ** Small JavaScript helpers *)

(** An error monad for promises that may reject. *)
Definition Result (A : Type) := sum Error A.

Definition bind {A B} (r : Result A) (k : A -> Result B) : Result B :=
  match r with inl e => inl e | inr a => k a end.

Notation "x <- c ;; k" := (bind c (fun x => k))
  (at level 61, c at next level, right associativity).

(** [!s] on a value that is [undefined] or a string. *)
Definition falsy (s : option string) : bool :=
  match s with
  | None => true
  | Some s' => (s' =? "")%string
  end.

Definition opt_string_eqb (a b : option string) : bool :=
  match a, b with
  | None, None => true
  | Some x, Some y => (x =? y)%string
  | _, _ => false
  end.

Definition opt_Z_eqb (a b : option Z) : bool :=
  match a, b with
  | None, None => true
  | Some x, Some y => Z.eqb x y
  | _, _ => false
  end.

Definition is_none {A} (o : option A) : bool :=
  match o with None => true | Some _ => false end.

(** [s.split(sep)] for a one-character separator. *)
Fixpoint split (sep : ascii) (s : string) : list string :=
  match s with
  | EmptyString => [EmptyString]
  | String c rest =>
      if Ascii.eqb c sep then EmptyString :: split sep rest
      else match split sep rest with
           | [] => [String c EmptyString]
           | w :: ws => String c w :: ws
           end
  end.

(** The UTF-16 code units a UTF-8 byte stands for: one for an ASCII byte
    and for the lead byte of a two- or three-byte sequence, two (a
    surrogate pair) for the lead byte of a four-byte sequence, none for a
    continuation byte. *)
Definition codeUnits (c : ascii) : nat :=
  let b := N_of_ascii c in
  if (b <? 128)%N then 1%nat
  else if (b <? 192)%N then 0%nat
  else if (b <? 240)%N then 1%nat
  else 2%nat.

(** [s.length]: the number of UTF-16 code units of [s]. *)
Fixpoint jsLength (s : string) : nat :=
  match s with
  | EmptyString => 0%nat
  | String c rest => (codeUnits c + jsLength rest)%nat
  end.

(** [a < b] on numbers. *)
Definition Qlt_bool (a b : Q) : bool := negb (Qle_bool b a).

Definition Path_eqb (p q : Path) : bool :=
  match p, q with
  | P_name, P_name | P_email, P_email | P_password, P_password
  | P_passwordConfirm, P_passwordConfirm | P_role, P_role
  | P_passwordChangedAt, P_passwordChangedAt
  | P_passwordResetToken, P_passwordResetToken
  | P_passwordResetExpires, P_passwordResetExpires => true
  | _, _ => false
  end.

Definition isModified (p : Path) (d : Doc) : bool :=
  existsb (Path_eqb p) (modified d).

(** ** Field updates *)

Definition with_password (v : option string) (u : User) : User :=
  mkUser (_id u) (name u) (email u) v (passwordConfirm u) (role u)
         (passwordChangedAt u) (passwordResetToken u) (passwordResetExpires u).

Definition with_passwordConfirm (v : option string) (u : User) : User :=
  mkUser (_id u) (name u) (email u) (password u) v (role u)
         (passwordChangedAt u) (passwordResetToken u) (passwordResetExpires u).

Definition with_passwordChangedAt (v : option Z) (u : User) : User :=
  mkUser (_id u) (name u) (email u) (password u) (passwordConfirm u) (role u)
         v (passwordResetToken u) (passwordResetExpires u).

Definition with_passwordResetToken (v : option string) (u : User) : User :=
  mkUser (_id u) (name u) (email u) (password u) (passwordConfirm u) (role u)
         (passwordChangedAt u) v (passwordResetExpires u).

Definition with_passwordResetExpires (v : option Z) (u : User) : User :=
  mkUser (_id u) (name u) (email u) (password u) (passwordConfirm u) (role u)
         (passwordChangedAt u) (passwordResetToken u) v.

(** Copy one path of [src] into [dst]: the [$set]/[$unset] of one modified
    path. *)
Definition copyPath (src : User) (dst : User) (p : Path) : User :=
  match p with
  | P_name =>
      mkUser (_id dst) (name src) (email dst) (password dst)
             (passwordConfirm dst) (role dst) (passwordChangedAt dst)
             (passwordResetToken dst) (passwordResetExpires dst)
  | P_email =>
      mkUser (_id dst) (name dst) (email src) (password dst)
             (passwordConfirm dst) (role dst) (passwordChangedAt dst)
             (passwordResetToken dst) (passwordResetExpires dst)
  | P_password => with_password (password src) dst
  | P_passwordConfirm => with_passwordConfirm (passwordConfirm src) dst
  | P_role =>
      mkUser (_id dst) (name dst) (email dst) (password dst)
             (passwordConfirm dst) (role src) (passwordChangedAt dst)
             (passwordResetToken dst) (passwordResetExpires dst)
  | P_passwordChangedAt => with_passwordChangedAt (passwordChangedAt src) dst
  | P_passwordResetToken => with_passwordResetToken (passwordResetToken src) dst
  | P_passwordResetExpires =>
      with_passwordResetExpires (passwordResetExpires src) dst
  end.

(** Assignment to a path of a document: the path becomes modified when the
    document is new, when the value changes, or when [undefined] is assigned
    to a path that was not selected. *)
Definition assign (p : Path) (changed : bool) (upd : User -> User) (d : Doc)
  : Doc :=
  mkDoc (upd (fields d)) (isNew d)
        (if isNew d || changed then
           if isModified p d then modified d else p :: modified d
         else modified d)
        (passwordSelected d).

Definition set_password (v : option string) (d : Doc) : Doc :=
  assign P_password
         (negb (opt_string_eqb v (password (fields d)))
          || (is_none v && negb (passwordSelected d)))
         (with_password v) d.

Definition set_passwordConfirm (v : option string) (d : Doc) : Doc :=
  assign P_passwordConfirm
         (negb (opt_string_eqb v (passwordConfirm (fields d))))
         (with_passwordConfirm v) d.

Definition set_passwordChangedAt (v : option Z) (d : Doc) : Doc :=
  assign P_passwordChangedAt
         (negb (opt_Z_eqb v (passwordChangedAt (fields d))))
         (with_passwordChangedAt v) d.

Definition set_passwordResetToken (v : option string) (d : Doc) : Doc :=
  assign P_passwordResetToken
         (negb (opt_string_eqb v (passwordResetToken (fields d))))
         (with_passwordResetToken v) d.

Definition set_passwordResetExpires (v : option Z) (d : Doc) : Doc :=
  assign P_passwordResetExpires
         (negb (opt_Z_eqb v (passwordResetExpires (fields d))))
         (with_passwordResetExpires v) d.

(** ** The [User] model ([src/models/userModel.js]) *)

Section Model.

Variable X : Externals.

(** [userSchema.methods.passwordMatching]: [bcrypt.compare] rejects when an
    argument is not a string. *)
Definition passwordMatching (enteredPassword userPassword : option string)
  : Result bool :=
  match enteredPassword, userPassword with
  | Some entered, Some hashed => inr (bcrypt_compare X entered hashed)
  | _, _ => inl IllegalArguments
  end.

(** [userSchema.methods.changedPasswordAfter] (the later of the two
    identical definitions is the one in force). *)
Definition changedPasswordAfter (this : User) (tokenIssuedAt : Z) : bool :=
  match passwordChangedAt this with
  | Some t =>
      let changedTimestamp := (inject_Z t / inject_Z 1000)%Q in
      Qlt_bool (inject_Z tokenIssuedAt) changedTimestamp
  | None => false
  end.

(** [userSchema.pre('save', ...)]. *)
Definition preSave (salt : string) (now : Z) (this : Doc) : Result Doc :=
  if negb (isModified P_password this) then inr this
  else
    match password (fields this) with
    | None => inl IllegalArguments
    | Some plain =>
        let this := set_password (Some (bcrypt_hash X plain salt)) this in
        let this := set_passwordConfirm None this in
        let this :=
          if negb (isNew this)
          then set_passwordChangedAt (Some (now - 1000)) this
          else this in
        inr this
    end.

(** [userSchema.methods.createPasswordResetToken]; [randomBytes] is the hex
    rendering of [crypto.randomBytes(32)]. *)
Definition createPasswordResetToken (randomBytes : string) (now : Z)
    (this : Doc) : string * Doc :=
  let resetToken := randomBytes in
  let this := set_passwordResetToken (Some (sha256_hex X resetToken)) this in
  let this := set_passwordResetExpires (Some (now + 10 * 60 * 1000)) this in
  (resetToken, this).

(** *** Schema validation *)

(** [required] on a [String] path: present and not empty. *)
Definition required (v : option string) : bool := negb (falsy v).

(** [minlength: 6]: the validator tests [v.length >= n]. *)
Definition minlength (n : nat) (v : string) : bool :=
  Nat.leb n (jsLength v).

Definition validPath (d : Doc) (p : Path) : bool :=
  let this := fields d in
  match p with
  | P_name => required (name this)
  | P_email =>
      required (email this)
      && match email this with Some e => isEmail X e | None => true end
  | P_password =>
      if passwordSelected d || isModified P_password d then
        required (password this)
        && match password this with Some v => minlength 6 v | None => true end
      else true
  | P_passwordConfirm =>
      required (passwordConfirm this)
      && opt_string_eqb (passwordConfirm this) (password this)
  | _ => true
  end.

Definition schemaPaths : list Path :=
  [P_name; P_email; P_password; P_passwordConfirm; P_role;
   P_passwordChangedAt; P_passwordResetToken; P_passwordResetExpires].

(** The paths whose validators fail. *)
Definition validate (d : Doc) : list Path :=
  filter (fun p => negb (validPath d p)) schemaPaths.

(** *** Persistence *)

Fixpoint updateOne (ident : ObjectId) (upd : User -> User) (db : DB) : DB :=
  match db with
  | [] => []
  | u :: rest =>
      if (_id u =? ident)%string then upd u :: rest
      else u :: updateOne ident upd rest
  end.

(** Insertion under the [_id] index and the [unique: true] index of
    [email]. *)
Definition insertOne (u : User) (db : DB) : Result DB :=
  if existsb (fun v => (_id v =? _id u)%string
                       || opt_string_eqb (email v) (email u)) db
  then inl DuplicateKey
  else inr (db ++ [u])%list.

(** [doc.save({ validateBeforeSave })]: validation, then the [pre('save')]
    hook, then the write of the modified paths (or the insertion of a new
    document). *)
Definition save (validateBeforeSave : bool) (salt : string) (now : Z)
    (d : Doc) (db : DB) : Result (Doc * DB) :=
  _ <- (if validateBeforeSave then
          match validate d with
          | [] => inr tt
          | errs => inl (ValidationError errs)
          end
        else inr tt) ;;
  d' <- preSave salt now d ;;
  if isNew d' then
    db' <- insertOne (fields d') db ;;
    inr (mkDoc (fields d') false [] true, db')
  else
    inr (mkDoc (fields d') false [] (passwordSelected d'),
         updateOne (_id (fields d'))
                   (fun stored => fold_left (copyPath (fields d'))
                                            (modified d') stored)
                   db).

(** A query result: [password] is [select: false] unless asked for with
    [.select('+password')]. *)
Definition hydrate (selectPassword : bool) (u : User) : Doc :=
  mkDoc (if selectPassword then u else with_password None u)
        false [] selectPassword.

Definition findOne (filter : User -> bool) (selectPassword : bool) (db : DB)
  : option Doc :=
  option_map (hydrate selectPassword) (find filter db).

Definition findById (ident : ObjectId) (selectPassword : bool) (db : DB)
  : option Doc :=
  findOne (fun u => (_id u =? ident)%string) selectPassword db.

(** The filter [{ email }]; the [lowercase: true] setter applies to the
    queried value too. *)
Definition byEmail (e : option string) (u : User) : bool :=
  opt_string_eqb (email u) (option_map (toLowerCase X) e).

(** The filter
    [{ passwordResetToken: hashedToken, passwordResetExpires: { $gt: now } }]. *)
Definition byResetToken (hashedToken : string) (now : Z) (u : User) : bool :=
  opt_string_eqb (passwordResetToken u) (Some hashedToken)
  && match passwordResetExpires u with
     | Some expires => now <? expires
     | None => false
     end.

(** [User.create({ name, email, password, passwordConfirm })]. *)
Definition create (newId : ObjectId)
    (b_name b_email b_password b_passwordConfirm : option string)
    (salt : string) (now : Z) (db : DB) : Result (Doc * DB) :=
  let d :=
    mkDoc (mkUser newId b_name (option_map (toLowerCase X) b_email)
                  b_password b_passwordConfirm user None None None)
          true
          [P_name; P_email; P_password; P_passwordConfirm]
          true in
  save true salt now d db.

(** ** The controllers ([src/controllers/authController.js]) *)

Definition sendTokenResponse (tnow : Z) (u : User) (statusCode : Z)
  : Outcome :=
  let token := createToken X tnow (_id u) in
  Responded statusCode (mkBody "success" (Some token) (Some u) None).

Definition signUp (b_name b_email b_password b_passwordConfirm : option string)
    (newId salt : string) (now : Z) (welcomeSent : bool) (tnow : Z)
    (db : DB) : Outcome * DB :=
  match create newId b_name b_email b_password b_passwordConfirm salt now db
  with
  | inl e => (NextError e, db)
  | inr (newUser, db') =>
      let newUser := set_password None newUser in
      if welcomeSent
      then (sendTokenResponse tnow (fields newUser) 201, db')
      else (sendTokenResponse tnow (fields newUser) 201, db')
  end.

Definition login (b_email b_password : option string) (tnow : Z) (db : DB)
  : Outcome :=
  if falsy b_email || falsy b_password then NextError MissingCredentials
  else
    match findOne (byEmail b_email) true db with
    | None => NextError InvalidCredentials
    | Some u =>
        match passwordMatching b_password (password (fields u)) with
        | inl e => NextError e
        | inr isPasswordCorrect =>
            if negb isPasswordCorrect then NextError InvalidCredentials
            else
              let u := set_password None u in
              sendTokenResponse tnow (fields u) 200
        end
    end.

(** The bearer token of [req.headers.authorization], if any. *)
Definition bearerToken (authorization : option string) : option string :=
  match authorization with
  | Some h =>
      if negb (h =? "")%string && prefix "Bearer" h
      then nth_error (split " " h) 1
      else None
  | None => None
  end.

Definition protect (authorization : option string) (clock : Z) (db : DB)
  : Outcome :=
  let token := bearerToken authorization in
  match token with
  | None => NextError Unauthenticated
  | Some t =>
      if (t =? "")%string then NextError Unauthenticated
      else
        match jwt_verify X t clock with
        | None => NextError JsonWebTokenError
        | Some decoded =>
            match findById (id decoded) false db with
            | None => NextError UserGone
            | Some currentUser =>
                let tokenIssuedAt := iat decoded in
                if changedPasswordAfter (fields currentUser) tokenIssuedAt
                then NextError StalePassword
                else Forward (fields currentUser)
            end
        end
  end.

Definition forgetPassword (b_email : option string) (randomBytes : string)
    (now : Z) (salt : string) (mailSent : bool) (db : DB) : Outcome * DB :=
  match findOne (byEmail b_email) false db with
  | None => (NextError NotFound, db)
  | Some u =>
      let (resetToken, u) := createPasswordResetToken randomBytes now u in
      match save false salt now u db with
      | inl e => (NextError e, db)
      | inr (u, db1) =>
          if mailSent then
            (Responded 200
               (mkBody "success" None None (Some "Token sent to email.")),
             db1)
          else
            let u := set_passwordResetToken None u in
            let u := set_passwordResetExpires None u in
            match save false salt now u db1 with
            | inl e => (NextError e, db1)
            | inr (_, db2) => (NextError DeliveryError, db2)
            end
      end
  end.

Definition resetPassword (p_token : string)
    (b_password b_passwordConfirm : option string)
    (now : Z) (salt : string) (saveNow tnow : Z) (db : DB) : Outcome * DB :=
  let hashedToken := sha256_hex X p_token in
  match findOne (byResetToken hashedToken now) false db with
  | None => (NextError InvalidOrExpiredToken, db)
  | Some u =>
      let u := set_password b_password u in
      let u := set_passwordConfirm b_passwordConfirm u in
      let u := set_passwordResetToken None u in
      let u := set_passwordResetExpires None u in
      match save true salt saveNow u db with
      | inl e => (NextError e, db)
      | inr (u, db') =>
          let u := set_password None u in
          (sendTokenResponse tnow (fields u) 200, db')
      end
  end.

Definition updatePassword (reqUser : User)
    (b_currentPassword b_password b_passwordConfirm : option string)
    (salt : string) (saveNow tnow : Z) (db : DB) : Outcome * DB :=
  match findById (_id reqUser) true db with
  | None => (NextError TypeError, db)
  | Some u =>
      match passwordMatching b_currentPassword (password (fields u)) with
      | inl e => (NextError e, db)
      | inr isPasswordCorrect =>
          if negb isPasswordCorrect
          then (NextError IncorrectCurrentPassword, db)
          else
            let u := set_password b_password u in
            let u := set_passwordConfirm b_passwordConfirm u in
            match save true salt saveNow u db with
            | inl e => (NextError e, db)
            | inr (u, db') =>
                let u := set_password None u in
                (sendTokenResponse tnow (fields u) 200, db')
            end
      end
  end.

End Model.

(** ** A reference instance of the externals

    Collision-free stand-ins for the digests, used to evaluate the handlers
    on concrete requests. *)

Module Ref.

Definition sha256_hex (s : string) : string := "sha256:" ++ s.

Definition bcrypt_hash (plain salt : string) : string :=
  "$2a$12$" ++ salt ++ "." ++ plain.

Definition bcrypt_compare (entered hashed : string) : bool :=
  (substring 13 (String.length hashed - 13) hashed =? entered)%string.

(** Two tokens, both of the user [u1]: issued at second 8 and at second 9. *)
Definition jwt_verify (t : string) (clock : Z) : option Decoded :=
  if (t =? "t8")%string then Some (mkDecoded "u1" 8)
  else if (t =? "t9")%string then Some (mkDecoded "u1" 9)
  else None.

Definition createToken (tnow : Z) (ident : ObjectId) : string :=
  "jwt." ++ ident.

Definition isEmail (e : string) : bool :=
  existsb (Ascii.eqb "@") (list_ascii_of_string e).

Definition toLowerCase (s : string) : string := s.

Definition X : Externals :=
  mkExternals sha256_hex bcrypt_hash bcrypt_compare jwt_verify createToken
              isEmail toLowerCase.

(** A stored user whose salt is [aaaaa] and whose password is [oldpass]. *)
Definition u1 : User :=
  mkUser "u1" (Some "Ann") (Some "ann@jobs.hub")
         (Some (bcrypt_hash "oldpass" "aaaaa")) None user None None None.

Definition db1 : DB := [u1].

End Ref.

(** ** Reading a path, and documents in step with their stored record *)

Inductive Value :=
| V_string (v : option string)
| V_date (v : option Z)
| V_role (r : Role).

Definition getPath (p : Path) (u : User) : Value :=
  match p with
  | P_name => V_string (name u)
  | P_email => V_string (email u)
  | P_password => V_string (password u)
  | P_passwordConfirm => V_string (passwordConfirm u)
  | P_role => V_role (role u)
  | P_passwordChangedAt => V_date (passwordChangedAt u)
  | P_passwordResetToken => V_string (passwordResetToken u)
  | P_passwordResetExpires => V_date (passwordResetExpires u)
  end.

(** A path of a loaded document carries a value unless it is the
    unselected [password]. *)
Definition visible (q : Path) (d : Doc) : bool :=
  match q with
  | P_password => passwordSelected d
  | _ => true
  end.

(** A loaded document is in step with the stored record [s] when every
    path it shows and has not modified still holds the stored value. *)
Definition synced (d : Doc) (s : User) : Prop :=
  isNew d = false
  /\ _id (fields d) = _id s
  /\ forall q, isModified q d = false -> visible q d = true ->
               getPath q (fields d) = getPath q s.

(** The record that the write of a saved document leaves in the store. *)
Definition written (d : Doc) (s : User) : User :=
  fold_left (copyPath (fields d)) (modified d) s.

Definition byId (ident : ObjectId) (u : User) : bool :=
  (_id u =? ident)%string.

(** The [_id] index: no two stored records share an identifier. *)
Definition uniqueIds (db : DB) : Prop := NoDup (map _id db).

(** A reset-token digest is held by at most one stored record. *)
Definition soleHolder (hashedToken : string) (db : DB) : Prop :=
  forall v w, In v db -> In w db ->
    passwordResetToken v = Some hashedToken ->
    passwordResetToken w = Some hashedToken -> v = w.

(** The stored name and email pass their validators, as they did when the
    record was created. *)
Definition validIdentity (X : Externals) (s : User) : Prop :=
  required (name s) = true
  /\ required (email s) = true
  /\ match email s with Some e => isEmail X e = true | None => True end.

(** The stored record once a reset token was issued: digest and expiry. *)
Definition issued (hashedToken : string) (expires : Z) (s : User) : User :=
  with_passwordResetExpires (Some expires)
    (with_passwordResetToken (Some hashedToken) s).

(** The stored record once both reset fields were unset. *)
Definition cleared (s : User) : User :=
  with_passwordResetExpires None (with_passwordResetToken None s).

(** The stored record once a loaded document got a new password and was
    saved: the hash, no confirmation, the backdated timestamp. *)
Definition rehashed (hashed : string) (changedAt : Z) (s : User) : User :=
  with_passwordChangedAt (Some changedAt)
    (with_passwordConfirm None (with_password (Some hashed) s)).

(** [s] is a stored record and the only one with a reset token pending. *)
Definition onlyPending (s : User) (db : DB) : Prop :=
  In s db /\ forall v, In v db -> passwordResetToken v <> None -> v = s.

(** The password of the user [uid] was changed by a save at clock reading
    [t1], through reset-password or through update-password, taking the
    collection from [db] to [db']. *)
Definition passwordChangedBy (X : Externals) (uid : ObjectId) (t1 : Z)
    (db db' : DB) : Prop :=
  (exists p_token b_password b_passwordConfirm now salt tnow code body s,
      find (byResetToken (sha256_hex X p_token) now) db = Some s
      /\ _id s = uid
      /\ resetPassword X p_token b_password b_passwordConfirm now salt t1
                       tnow db
         = (Responded code body, db'))
  \/ (exists reqUser b_current b_password b_passwordConfirm salt tnow code
             body s,
        _id reqUser = uid
        /\ find (byId uid) db = Some s
        /\ b_password <> password s
        /\ updatePassword X reqUser b_current b_password b_passwordConfirm
                          salt t1 tnow db
           = (Responded code body, db')).


(** The document reset-password saves. *)
Definition resetDoc (b_password b_passwordConfirm : option string) (s : User)
  : Doc :=
  set_passwordResetExpires None
    (set_passwordResetToken None
       (set_passwordConfirm b_passwordConfirm
          (set_password b_password (hydrate false s)))).

(** The document update-password saves. *)
Definition updateDoc (b_password b_passwordConfirm : option string) (s : User)
  : Doc :=
  set_passwordConfirm b_passwordConfirm
    (set_password b_password (hydrate true s)).

(** ** The role gate *)

(** The string a role is stored as. *)
Definition roleName (r : Role) : string :=
  match r with
  | user => "user"
  | admin => "admin"
  end.

(** [exports.restrictTo(...permittedRoles)], applied to a request that
    [protect] has attached [req.user] to. *)
Definition restrictTo (permittedRoles : list string) (reqUser : User)
  : Outcome :=
  let userRole := roleName (role reqUser) in
  if existsb (fun r => (r =? userRole)%string) permittedRoles
  then Forward reqUser
  else
    let errorMessage := "You don't have permission to perform this action." in
    Responded 403 (mkBody "fail" None None (Some errorMessage)).

(** ** Well-formed collections *)

(** A string without the separator of [split(' ')]. *)
Fixpoint noSpace (s : string) : bool :=
  match s with
  | EmptyString => true
  | String c rest => negb (Ascii.eqb c " ") && noSpace rest
  end.

(** The [unique: true] index of [email]. *)
Definition uniqueEmails (db : DB) : Prop := NoDup (map email db).

(** A stored record has its reset digest and its reset expiry both set or
    both unset. *)
Definition resetPairWf (u : User) : Prop :=
  passwordResetToken u = None <-> passwordResetExpires u = None.

(** A stored record has a password. *)
Definition hasPassword (u : User) : Prop := password u <> None.

(** The record sign-up inserts. *)
Definition signedUp (X : Externals) (newId : ObjectId)
    (b_name b_email : option string) (plain salt : string) : User :=
  mkUser newId b_name (option_map (toLowerCase X) b_email)
         (Some (bcrypt_hash X plain salt)) None user None None None.

(** What a write to a stored record [s] keeps when it leaves [s']: the
    identifier and the email, the presence of a password, and the
    well-formedness of the reset pair. *)
Definition keeps (s s' : User) : Prop :=
  _id s' = _id s
  /\ email s' = email s
  /\ (hasPassword s -> hasPassword s')
  /\ (resetPairWf s -> resetPairWf s').

(** The three ways a handler changes the collection: not at all, by
    inserting a record under fresh index keys, or by overwriting the record
    of one identifier. *)
Definition evolves (db db' : DB) : Prop :=
  db' = db
  \/ (exists rec,
        db' = (db ++ [rec])%list
        /\ ~ In (_id rec) (map _id db)
        /\ ~ In (email rec) (map email db)
        /\ hasPassword rec /\ resetPairWf rec)
  \/ (exists s s',
        find (byId (_id s)) db = Some s
        /\ db' = updateOne (_id s) (fun _ => s') db
        /\ keeps s s').

(** The document [User.create] validates and saves. *)
Definition createDoc (X : Externals) (newId : ObjectId)
    (b_name b_email b_password b_passwordConfirm : option string) : Doc :=
  mkDoc (mkUser newId b_name (option_map (toLowerCase X) b_email)
                b_password b_passwordConfirm user None None None)
        true
        [P_name; P_email; P_password; P_passwordConfirm]
        true.

(** A request to one of the handlers that write to the collection, with
    the inputs the handler consumes. *)
Inductive Request :=
| SignUp (b_name b_email b_password b_passwordConfirm : option string)
         (newId salt : string) (now : Z) (welcomeSent : bool) (tnow : Z)
| ForgetPassword (b_email : option string) (randomBytes : string) (now : Z)
                 (salt : string) (mailSent : bool)
| ResetPassword (p_token : string)
                (b_password b_passwordConfirm : option string)
                (now : Z) (salt : string) (saveNow tnow : Z)
| UpdatePassword (reqUser : User)
                 (b_currentPassword b_password b_passwordConfirm : option string)
                 (salt : string) (saveNow tnow : Z).

Definition handle (X : Externals) (r : Request) (db : DB) : Outcome * DB :=
  match r with
  | SignUp n e p pc newId salt now sent tnow =>
      signUp X n e p pc newId salt now sent tnow db
  | ForgetPassword e rb now salt sent => forgetPassword X e rb now salt sent db
  | ResetPassword tok p pc now salt saveNow tnow =>
      resetPassword X tok p pc now salt saveNow tnow db
  | UpdatePassword u cur p pc salt saveNow tnow =>
      updatePassword X u cur p pc salt saveNow tnow db
  end.

(** The collection after a sequence of requests, served one at a time. *)
Definition serve (X : Externals) (rs : list Request) (db : DB) : DB :=
  fold_left (fun acc r => snd (handle X r acc)) rs db.

(** ** Basic facts *)

Lemma opt_string_eqb_eq a b : opt_string_eqb a b = true <-> a = b.
Proof.
  destruct a as [x|], b as [y|]; simpl; split; intro H;
    try discriminate; try reflexivity.
  - apply String.eqb_eq in H. now subst.
  - inversion H. apply String.eqb_refl.
Qed.

Lemma opt_string_eqb_refl a : opt_string_eqb a a = true.
Proof. now apply opt_string_eqb_eq. Qed.

Lemma opt_Z_eqb_eq a b : opt_Z_eqb a b = true <-> a = b.
Proof.
  destruct a as [x|], b as [y|]; simpl; split; intro H;
    try discriminate; try reflexivity.
  - apply Z.eqb_eq in H. now subst.
  - inversion H. apply Z.eqb_refl.
Qed.

Lemma Path_eqb_eq p q : Path_eqb p q = true <-> p = q.
Proof. destruct p, q; simpl; split; intro H; try discriminate; reflexivity. Qed.

Lemma Path_eqb_refl p : Path_eqb p p = true.
Proof. now destruct p. Qed.

Lemma copyPath_get src dst p q :
  getPath q (copyPath src dst p)
  = if Path_eqb q p then getPath q src else getPath q dst.
Proof. destruct p, q; reflexivity. Qed.

Lemma copyPath_id src dst p : _id (copyPath src dst p) = _id dst.
Proof. destruct p; reflexivity. Qed.

Lemma fold_copyPath_get src l : forall dst q,
  getPath q (fold_left (copyPath src) l dst)
  = if existsb (Path_eqb q) l then getPath q src else getPath q dst.
Proof.
  induction l as [|p l IH]; intros dst q; simpl; [reflexivity|].
  rewrite IH, copyPath_get.
  destruct (Path_eqb q p); simpl; [|reflexivity].
  now destruct (existsb (Path_eqb q) l).
Qed.

Lemma fold_copyPath_id src l : forall dst,
  _id (fold_left (copyPath src) l dst) = _id dst.
Proof.
  induction l as [|p l IH]; intros dst; simpl; [reflexivity|].
  now rewrite IH, copyPath_id.
Qed.

Lemma written_get d s q :
  getPath q (written d s)
  = if isModified q d then getPath q (fields d) else getPath q s.
Proof. apply fold_copyPath_get. Qed.

Lemma written_id d s : _id (written d s) = _id s.
Proof. apply fold_copyPath_id. Qed.

(** A document in step with [s] is written through: the stored record
    takes every value the document shows. *)
Lemma written_visible d s q :
  synced d s -> visible q d = true ->
  getPath q (written d s) = getPath q (fields d).
Proof.
  intros (_ & _ & H) Hv. rewrite written_get.
  destruct (isModified q d) eqn:E; [reflexivity|].
  symmetry. now apply H.
Qed.

Lemma user_ext a b :
  _id a = _id b -> (forall q, getPath q a = getPath q b) -> a = b.
Proof.
  intros Hid H. destruct a, b; simpl in *.
  pose proof (H P_name) as H1. pose proof (H P_email) as H2.
  pose proof (H P_password) as H3. pose proof (H P_passwordConfirm) as H4.
  pose proof (H P_role) as H5. pose proof (H P_passwordChangedAt) as H6.
  pose proof (H P_passwordResetToken) as H7.
  pose proof (H P_passwordResetExpires) as H8.
  simpl in *. congruence.
Qed.

(** *** The collection *)

Lemma find_updateOne_byId i upd db :
  (forall s, _id s = i -> _id (upd s) = i) ->
  find (byId i) (updateOne i upd db) = option_map upd (find (byId i) db).
Proof.
  intros Hid. induction db as [|u db IH]; simpl; [reflexivity|].
  unfold byId at 2. destruct (_id u =? i)%string eqn:E; simpl.
  - unfold byId. apply String.eqb_eq in E.
    now rewrite (Hid u E), String.eqb_refl.
  - unfold byId at 1. now rewrite E.
Qed.

Lemma updateOne_first i upd upd' db s :
  find (byId i) db = Some s -> upd s = upd' s ->
  updateOne i upd db = updateOne i upd' db.
Proof.
  intros Hf He. induction db as [|u db IH]; simpl in *; [reflexivity|].
  unfold byId in Hf at 1. destruct (_id u =? i)%string.
  - inversion Hf; subst. now rewrite He.
  - f_equal. now apply IH.
Qed.

Lemma updateOne_updateOne i f g db :
  (forall s, _id s = i -> _id (f s) = i) ->
  updateOne i g (updateOne i f db) = updateOne i (fun s => g (f s)) db.
Proof.
  intros Hid. induction db as [|u db IH]; simpl; [reflexivity|].
  destruct (_id u =? i)%string eqn:E; simpl.
  - apply String.eqb_eq in E. now rewrite (Hid u E), String.eqb_refl.
  - now rewrite E, IH.
Qed.

Lemma uniqueIds_find db s :
  uniqueIds db -> In s db -> find (byId (_id s)) db = Some s.
Proof.
  unfold uniqueIds. induction db as [|u db IH]; simpl; intros Hnd Hin;
    [contradiction|].
  inversion Hnd as [|? ? Hnotin Hnd']; subst.
  unfold byId at 1. destruct (_id u =? _id s)%string eqn:E.
  - destruct Hin as [->|Hin]; [reflexivity|].
    apply String.eqb_eq in E. exfalso. apply Hnotin.
    rewrite E. now apply in_map.
  - destruct Hin as [->|Hin]; [now rewrite String.eqb_refl in E|].
    now apply IH.
Qed.

Lemma uniqueIds_updateOne i upd db :
  (forall s, _id s = i -> _id (upd s) = i) ->
  uniqueIds db -> uniqueIds (updateOne i upd db).
Proof.
  intros Hid. unfold uniqueIds.
  assert (E : map _id (updateOne i upd db) = map _id db).
  { induction db as [|u db IH]; simpl; [reflexivity|].
    destruct (_id u =? i)%string eqn:E; simpl; [|now rewrite IH].
    apply String.eqb_eq in E. now rewrite (Hid u E), E. }
  now rewrite E.
Qed.

(** A query that found [s] finds its replacement, when the replacement
    still matches. *)
Lemma find_updateOne_keep (P : User -> bool) db s s' :
  find P db = Some s -> find (byId (_id s)) db = Some s ->
  P s' = true ->
  find P (updateOne (_id s) (fun _ => s') db) = Some s'.
Proof.
  intros HP Hi Hs'. induction db as [|u db IH]; simpl in *; [discriminate|].
  unfold byId in Hi at 1. destruct (_id u =? _id s)%string eqn:E; simpl.
  - now rewrite Hs'.
  - destruct (P u).
    + inversion HP; subst. now rewrite String.eqb_refl in E.
    + now apply IH.
Qed.

(** Every record of an updated collection is the updated one or an
    untouched record with another identifier. *)
Lemma In_updateOne i upd db v :
  uniqueIds db -> In v (updateOne i upd db) ->
  (exists s, find (byId i) db = Some s /\ v = upd s)
  \/ (In v db /\ _id v <> i).
Proof.
  unfold uniqueIds. induction db as [|u db IH]; simpl; intros Hnd Hin;
    [contradiction|].
  inversion Hnd as [|? ? Hnotin Hnd']; subst.
  unfold byId at 1. destruct (_id u =? i)%string eqn:E.
  - destruct Hin as [<-|Hin]; [left; eauto|].
    right. split; [now right|]. intros Hv.
    apply String.eqb_eq in E. apply Hnotin. rewrite E, <- Hv.
    now apply in_map.
  - destruct Hin as [<-|Hin].
    + right. split; [now left|]. now apply String.eqb_neq.
    + destruct (IH Hnd' Hin) as [H|[H1 H2]]; [now left|].
      right. split; [now right|assumption].
Qed.

(** *** Assignments keep a document in step *)

Lemma isModified_assign_other p changed upd d q :
  q <> p -> isModified q (assign p changed upd d) = isModified q d.
Proof.
  intros Hq. unfold assign, isModified; simpl.
  destruct (isNew d || changed); [|reflexivity].
  fold (isModified p d). destruct (isModified p d); [reflexivity|].
  simpl. destruct (Path_eqb q p) eqn:E; [|reflexivity].
  apply Path_eqb_eq in E. contradiction.
Qed.

Lemma isModified_assign_mono p changed upd d q :
  isModified q d = true -> isModified q (assign p changed upd d) = true.
Proof.
  intros H. unfold assign, isModified; simpl.
  destruct (isNew d || changed); [|exact H].
  fold (isModified p d). destruct (isModified p d); [exact H|].
  simpl. unfold isModified in H. rewrite H. apply orb_true_r.
Qed.

Lemma isModified_assign_changed p upd d :
  isModified p (assign p true upd d) = true.
Proof.
  unfold assign, isModified; simpl. rewrite orb_true_r.
  fold (isModified p d). destruct (isModified p d) eqn:E; [exact E|].
  simpl. now rewrite Path_eqb_refl.
Qed.

Lemma synced_assign p changed upd d s :
  synced d s ->
  (forall u, _id (upd u) = _id u) ->
  (forall u q, q <> p -> getPath q (upd u) = getPath q u) ->
  (changed = false -> visible p d = true ->
   getPath p (upd (fields d)) = getPath p (fields d)) ->
  synced (assign p changed upd d) s.
Proof.
  intros (Hnew & Hid & Hs) Hupd Hother Hsame.
  split; [exact Hnew|]. split; [simpl; now rewrite Hupd|].
  intros q Hm Hv.
  assert (Hv' : visible q d = true) by (destruct q; exact Hv).
  change (fields (assign p changed upd d)) with (upd (fields d)).
  destruct (Path_eqb q p) eqn:E.
  - apply Path_eqb_eq in E; subst q.
    destruct changed.
    + now rewrite isModified_assign_changed in Hm.
    + assert (Hm' : isModified p d = false).
      { unfold assign, isModified in Hm; simpl in Hm.
        rewrite Hnew in Hm. exact Hm. }
      rewrite Hsame by auto. now apply Hs.
  - assert (Hq : q <> p) by (intros ->; now rewrite Path_eqb_refl in E).
    rewrite isModified_assign_other in Hm by exact Hq.
    rewrite Hother by exact Hq. now apply Hs.
Qed.

Lemma synced_set_password v d s :
  synced d s -> synced (set_password v d) s.
Proof.
  intros H. apply synced_assign; auto.
  - intros u q Hq. destruct q; try reflexivity. now contradiction Hq.
  - intros Hc Hv. simpl in *. apply orb_false_iff in Hc as [Hc _].
    apply negb_false_iff, opt_string_eqb_eq in Hc. now rewrite Hc.
Qed.

Lemma synced_set_passwordConfirm v d s :
  synced d s -> synced (set_passwordConfirm v d) s.
Proof.
  intros H. apply synced_assign; auto.
  - intros u q Hq. destruct q; try reflexivity. now contradiction Hq.
  - intros Hc _. simpl.
    apply negb_false_iff, opt_string_eqb_eq in Hc. now rewrite Hc.
Qed.

Lemma synced_set_passwordChangedAt v d s :
  synced d s -> synced (set_passwordChangedAt v d) s.
Proof.
  intros H. apply synced_assign; auto.
  - intros u q Hq. destruct q; try reflexivity. now contradiction Hq.
  - intros Hc _. simpl.
    apply negb_false_iff, opt_Z_eqb_eq in Hc. now rewrite Hc.
Qed.

Lemma synced_set_passwordResetToken v d s :
  synced d s -> synced (set_passwordResetToken v d) s.
Proof.
  intros H. apply synced_assign; auto.
  - intros u q Hq. destruct q; try reflexivity. now contradiction Hq.
  - intros Hc _. simpl.
    apply negb_false_iff, opt_string_eqb_eq in Hc. now rewrite Hc.
Qed.

Lemma synced_set_passwordResetExpires v d s :
  synced d s -> synced (set_passwordResetExpires v d) s.
Proof.
  intros H. apply synced_assign; auto.
  - intros u q Hq. destruct q; try reflexivity. now contradiction Hq.
  - intros Hc _. simpl.
    apply negb_false_iff, opt_Z_eqb_eq in Hc. now rewrite Hc.
Qed.

Lemma synced_hydrate sel s : synced (hydrate sel s) s.
Proof.
  split; [reflexivity|]. split; [now destruct sel|].
  intros q _ Hv. destruct sel; [reflexivity|].
  destruct q; try reflexivity. discriminate Hv.
Qed.

Create HintDb synced.

#[local] Hint Resolve synced_set_password synced_set_passwordConfirm
  synced_set_passwordChangedAt synced_set_passwordResetToken
  synced_set_passwordResetExpires synced_hydrate : synced.

(** *** The save pipeline *)

Section SaveFacts.

Variable X : Externals.

Lemma preSave_unmodified salt now d :
  isModified P_password d = false -> preSave X salt now d = inr d.
Proof. intros H. unfold preSave. now rewrite H. Qed.

Lemma preSave_modified salt now d plain :
  isModified P_password d = true -> isNew d = false ->
  password (fields d) = Some plain ->
  preSave X salt now d
  = inr (set_passwordChangedAt (Some (now - 1000))
           (set_passwordConfirm None
              (set_password (Some (bcrypt_hash X plain salt)) d))).
Proof.
  intros Hm Hn Hp. unfold preSave. rewrite Hm, Hp. simpl. now rewrite Hn.
Qed.

Lemma synced_preSave salt now d dp s :
  synced d s -> preSave X salt now d = inr dp -> synced dp s.
Proof.
  intros Hs. unfold preSave.
  destruct (isModified P_password d); simpl.
  - destruct (password (fields d)); [|discriminate].
    destruct Hs as (Hn & Hs). simpl. rewrite Hn. simpl.
    intros E; inversion E; subst.
    apply synced_set_passwordChangedAt, synced_set_passwordConfirm,
      synced_set_password. now split.
  - intros E; inversion E; now subst.
Qed.

Lemma preSave_selected salt now d dp :
  preSave X salt now d = inr dp -> passwordSelected dp = passwordSelected d.
Proof.
  unfold preSave. destruct (isModified P_password d); simpl.
  - destruct (password (fields d)); [|discriminate].
    intros E; inversion E. now destruct (isNew d).
  - intros E; now inversion E.
Qed.

Lemma validate_nil d :
  validate X d = [] <->
  validPath X d P_name = true /\ validPath X d P_email = true
  /\ validPath X d P_password = true
  /\ validPath X d P_passwordConfirm = true.
Proof.
  unfold validate, schemaPaths. cbn [filter].
  destruct (validPath X d P_name), (validPath X d P_email),
    (validPath X d P_password), (validPath X d P_passwordConfirm);
    simpl; split; intro H; try reflexivity; try discriminate H;
    try (repeat split; reflexivity);
    destruct H as (H1 & H2 & H3 & H4); discriminate.
Qed.

Lemma write_existing dp s db :
  _id (fields dp) = _id s -> find (byId (_id s)) db = Some s ->
  updateOne (_id (fields dp))
            (fun stored => fold_left (copyPath (fields dp)) (modified dp) stored)
            db
  = updateOne (_id s) (fun _ => written dp s) db
  /\ find (byId (_id s))
          (updateOne (_id (fields dp))
             (fun stored =>
                fold_left (copyPath (fields dp)) (modified dp) stored) db)
     = Some (written dp s).
Proof.
  intros Hid Hf. rewrite Hid. split.
  - now apply updateOne_first with (s := s).
  - rewrite find_updateOne_byId
      by (intros s0 H0; now rewrite fold_copyPath_id).
    now rewrite Hf.
Qed.

(** Saving a loaded document: the validators passed (when they ran), the
    hook ran, and the stored record was overwritten by [written]. *)
Lemma save_existing v salt now d db d' db' s :
  synced d s -> find (byId (_id s)) db = Some s ->
  save X v salt now d db = inr (d', db') ->
  exists dp,
    preSave X salt now d = inr dp
    /\ synced dp s
    /\ (v = true -> validate X d = [])
    /\ d' = mkDoc (fields dp) false [] (passwordSelected d)
    /\ db' = updateOne (_id s) (fun _ => written dp s) db
    /\ find (byId (_id s)) db' = Some (written dp s).
Proof.
  intros Hs Hf. unfold save.
  destruct v; [destruct (validate X d) eqn:Ev|]; simpl;
    try (intros E; discriminate E).
  all: destruct (preSave X salt now d) as [e|dp] eqn:Ep; simpl;
    [intros E; discriminate E|].
  all: pose proof (synced_preSave _ _ _ _ _ Hs Ep) as Hsp.
  all: pose proof (preSave_selected _ _ _ _ Ep) as Hsel.
  all: destruct (write_existing dp s db) as (Hdb & Hfind);
    [apply Hsp|exact Hf|].
  all: destruct Hsp as (Hn & Hid & Hq); rewrite Hn, Hsel.
  all: intros E; inversion E; subst d' db'; exists dp.
  all: split; [reflexivity|]; split; [now repeat split|].
  all: split; [|now repeat split].
  - reflexivity.
  - discriminate.
Qed.

End SaveFacts.

(** ** The stale-password check *)

(** [changedPasswordAfter] in integers: the token was issued before the
    stored timestamp, seconds against milliseconds. *)
Lemma changedPasswordAfter_true this tokenIssuedAt :
  changedPasswordAfter this tokenIssuedAt = true <->
  exists t, passwordChangedAt this = Some t /\ tokenIssuedAt * 1000 < t.
Proof.
  unfold changedPasswordAfter.
  destruct (passwordChangedAt this) as [t|].
  - unfold Qlt_bool, Qle_bool, Qdiv, Qmult, Qinv, inject_Z; simpl.
    rewrite negb_true_iff, Z.leb_gt. split.
    + intros H. exists t. split; [reflexivity|lia].
    + intros (t' & E & H). inversion E; subst. lia.
  - split; [discriminate|]. intros (t & E & _). discriminate.
Qed.

Lemma changedPasswordAfter_false this tokenIssuedAt :
  changedPasswordAfter this tokenIssuedAt = false <->
  (passwordChangedAt this = None
   \/ exists t, passwordChangedAt this = Some t /\ t <= tokenIssuedAt * 1000).
Proof.
  rewrite <- not_true_iff_false, changedPasswordAfter_true.
  destruct (passwordChangedAt this) as [t|]; split.
  - intros H. right. exists t. split; [reflexivity|].
    destruct (Z_lt_le_dec (tokenIssuedAt * 1000) t); [|assumption].
    exfalso. apply H. now exists t.
  - intros [H|(t' & E & H)] (t'' & E' & H'); [discriminate|].
    inversion E; inversion E'; subst. lia.
  - now left.
  - intros _ (t & E & _). discriminate.
Qed.

Section Gate.

Variable X : Externals.

(** [protect] once a bearer token is present and verifies. *)
Lemma protect_verified auth clock db t dec :
  bearerToken auth = Some t -> t <> "" ->
  jwt_verify X t clock = Some dec ->
  protect X auth clock db
  = match find (byId (id dec)) db with
    | None => NextError UserGone
    | Some u =>
        if changedPasswordAfter u (iat dec) then NextError StalePassword
        else Forward (with_password None u)
    end.
Proof.
  intros Ht Hne Hv. unfold protect. rewrite Ht.
  apply String.eqb_neq in Hne. rewrite Hne, Hv.
  unfold findById, findOne. fold (byId (id dec)).
  destruct (find (byId (id dec)) db) as [u|]; reflexivity.
Qed.

End Gate.

(** ** Login *)

(** C1, as the code has it: a login attempt that fails because no user has
    the given email, or because the password verification returns false,
    is answered with the same error, [InvalidCredentials] (401, "Invalid
    email or password"), so these two causes cannot be told apart; an
    attempt with the email or the password absent is answered with another
    error, status 400 and the message "Please provide valid email and
    password.". *)
Theorem login_failures_by_cause (X : Externals) e p tnow db :
  (falsy e || falsy p = true ->
   login X e p tnow db = NextError MissingCredentials)
  /\ (falsy e || falsy p = false ->
      find (byEmail X e) db = None ->
      login X e p tnow db = NextError InvalidCredentials)
  /\ (falsy e || falsy p = false ->
      forall u, find (byEmail X e) db = Some u ->
      passwordMatching X p (password u) = inr false ->
      login X e p tnow db = NextError InvalidCredentials).
Proof.
  unfold login, findOne. repeat split.
  - now intros ->.
  - intros -> ->. reflexivity.
  - intros -> u -> Hm. simpl. now rewrite Hm.
Qed.

Lemma login_failures_by_cause_witness :
  login Ref.X None (Some "oldpass") 0 Ref.db1 = NextError MissingCredentials
  /\ login Ref.X (Some "bob@jobs.hub") (Some "oldpass") 0 Ref.db1
     = NextError InvalidCredentials
  /\ login Ref.X (Some "ann@jobs.hub") (Some "wrong") 0 Ref.db1
     = NextError InvalidCredentials.
Proof.
  split; [|split].
  - apply (proj1 (login_failures_by_cause Ref.X None (Some "oldpass") 0
                    Ref.db1)).
    reflexivity.
  - apply (proj1 (proj2 (login_failures_by_cause Ref.X (Some "bob@jobs.hub")
                           (Some "oldpass") 0 Ref.db1))); reflexivity.
  - apply (proj2 (proj2 (login_failures_by_cause Ref.X (Some "ann@jobs.hub")
                           (Some "wrong") 0 Ref.db1))) with (u := Ref.u1);
      reflexivity.
Defined.

(** C1 as stated fails: with the email absent the answer is status 400 with
    its own message, not the 401 of an unknown email. *)
Lemma login_absent_email_differs :
  login Ref.X None (Some "oldpass") 0 Ref.db1
  = NextError (AppError "Please provide valid email and password." 400)
  /\ login Ref.X (Some "bob@jobs.hub") (Some "oldpass") 0 Ref.db1
     = NextError (AppError "Invalid email or password" 401)
  /\ login Ref.X None (Some "oldpass") 0 Ref.db1
     <> login Ref.X (Some "bob@jobs.hub") (Some "oldpass") 0 Ref.db1.
Proof.
  split; [reflexivity|]. split; [reflexivity|].
  vm_compute. discriminate.
Qed.

(** ** The access gate *)

(** C4: [protect] fails with [Unauthenticated] when the request carries no
    bearer token; for a token that verifies, it fails with [UserGone] when
    the subject id resolves to no user and with [StalePassword] when the
    user's password-changed timestamp is later than the token's issued-at;
    otherwise, and only then, it forwards with the resolved user (password
    not selected) attached. *)
Theorem protect_decisions (X : Externals) auth clock db :
  (falsy (bearerToken auth) = true ->
   protect X auth clock db = NextError Unauthenticated)
  /\ (forall t dec,
        bearerToken auth = Some t -> t <> "" ->
        jwt_verify X t clock = Some dec ->
        (find (byId (id dec)) db = None ->
         protect X auth clock db = NextError UserGone)
        /\ (forall u ts,
              find (byId (id dec)) db = Some u ->
              passwordChangedAt u = Some ts -> iat dec * 1000 < ts ->
              protect X auth clock db = NextError StalePassword)
        /\ (forall u,
              find (byId (id dec)) db = Some u ->
              (passwordChangedAt u = None
               \/ exists ts, passwordChangedAt u = Some ts
                             /\ ts <= iat dec * 1000) ->
              protect X auth clock db = Forward (with_password None u)))
  /\ (forall reqUser,
        protect X auth clock db = Forward reqUser ->
        exists t dec u,
          bearerToken auth = Some t /\ t <> ""
          /\ jwt_verify X t clock = Some dec
          /\ find (byId (id dec)) db = Some u
          /\ changedPasswordAfter u (iat dec) = false
          /\ reqUser = with_password None u).
Proof.
  split; [|split].
  - unfold protect. destruct (bearerToken auth) as [t|]; simpl.
    + now intros ->.
    + reflexivity.
  - intros t dec Ht Hne Hv.
    rewrite (protect_verified X auth clock db t dec Ht Hne Hv).
    split; [|split].
    + now intros ->.
    + intros u ts -> Hts Hlt.
      assert (H : changedPasswordAfter u (iat dec) = true)
        by (apply changedPasswordAfter_true; eauto).
      now rewrite H.
    + intros u -> H. apply changedPasswordAfter_false in H. now rewrite H.
  - intros reqUser. unfold protect.
    destruct (bearerToken auth) as [t|] eqn:Ht; [|discriminate].
    destruct (t =? "")%string eqn:Hne; [discriminate|].
    destruct (jwt_verify X t clock) as [dec|] eqn:Hv; [|discriminate].
    unfold findById, findOne. fold (byId (id dec)).
    destruct (find (byId (id dec)) db) as [u|] eqn:Hf; simpl; [|discriminate].
    destruct (changedPasswordAfter (with_password None u) (iat dec)) eqn:Hc;
      [discriminate|].
    intros E; inversion E; subst.
    exists t, dec, u. apply String.eqb_neq in Hne. now repeat split.
Qed.

Lemma protect_decisions_witness :
  protect Ref.X (Some "Basic abc") 0 Ref.db1 = NextError Unauthenticated
  /\ protect Ref.X (Some "Bearer t9") 0 [] = NextError UserGone
  /\ protect Ref.X (Some "Bearer t8") 0
       [with_passwordChangedAt (Some 9000) Ref.u1]
     = NextError StalePassword
  /\ protect Ref.X (Some "Bearer t9") 0
       [with_passwordChangedAt (Some 9000) Ref.u1]
     = Forward (with_password None
                  (with_passwordChangedAt (Some 9000) Ref.u1)).
Proof.
  split; [|split; [|split]].
  - apply (proj1 (protect_decisions Ref.X (Some "Basic abc") 0 Ref.db1)).
    reflexivity.
  - apply (proj1 (proj1 (proj2 (protect_decisions Ref.X (Some "Bearer t9") 0
                                  [])) "t9" (mkDecoded "u1" 9)
                          eq_refl ltac:(discriminate) eq_refl)).
    reflexivity.
  - apply (proj1 (proj2 (proj1 (proj2 (protect_decisions Ref.X
              (Some "Bearer t8") 0
              [with_passwordChangedAt (Some 9000) Ref.u1]))
            "t8" (mkDecoded "u1" 8) eq_refl ltac:(discriminate) eq_refl))
           (with_passwordChangedAt (Some 9000) Ref.u1) 9000);
      [reflexivity|reflexivity|simpl; lia].
  - apply (proj2 (proj2 (proj1 (proj2 (protect_decisions Ref.X
              (Some "Bearer t9") 0
              [with_passwordChangedAt (Some 9000) Ref.u1]))
            "t9" (mkDecoded "u1" 9) eq_refl ltac:(discriminate) eq_refl))
           (with_passwordChangedAt (Some 9000) Ref.u1));
      [reflexivity|].
    right. exists 9000. split; [reflexivity|simpl; lia].
Defined.

(** C9: a user record without a password-changed timestamp passes the
    stale-password check for every issued-at value, so [protect] never
    answers such a user's token with [StalePassword]: a verified, non-empty
    bearer token of that user is forwarded. *)
Theorem unchanged_password_never_stale (X : Externals) u :
  passwordChangedAt u = None ->
  (forall tokenIssuedAt, changedPasswordAfter u tokenIssuedAt = false)
  /\ (forall auth clock db t dec,
        bearerToken auth = Some t ->
        jwt_verify X t clock = Some dec ->
        find (byId (id dec)) db = Some u ->
        protect X auth clock db <> NextError StalePassword
        /\ (t <> "" ->
            protect X auth clock db = Forward (with_password None u))).
Proof.
  intros Hu.
  assert (Hc : forall i, changedPasswordAfter u i = false).
  { intros i. apply changedPasswordAfter_false. now left. }
  split; [exact Hc|].
  intros auth clock db t dec Ht Hv Hf.
  destruct (String.eqb_spec t "") as [->|Hne].
  - split; [|intros H; now contradiction H].
    unfold protect. rewrite Ht. simpl. discriminate.
  - rewrite (protect_verified X auth clock db t dec Ht Hne Hv), Hf, Hc.
    split; [discriminate|reflexivity].
Qed.

Lemma unchanged_password_never_stale_witness :
  (forall tokenIssuedAt, changedPasswordAfter Ref.u1 tokenIssuedAt = false)
  /\ protect Ref.X (Some "Bearer t8") 0 Ref.db1 <> NextError StalePassword.
Proof.
  destruct (unchanged_password_never_stale Ref.X Ref.u1 eq_refl) as [H1 H2].
  split; [exact H1|].
  exact (proj1 (H2 (Some "Bearer t8") 0 Ref.db1 "t8" (mkDecoded "u1" 8)
                   eq_refl eq_refl eq_refl)).
Defined.

(** ** What a save leaves in the store *)

Lemma written_shown d s :
  synced d s -> passwordSelected d || isModified P_password d = true ->
  written d s = fields d.
Proof.
  intros Hs Hp. apply user_ext.
  - rewrite written_id. symmetry. apply Hs.
  - intros q. rewrite written_get.
    destruct (isModified q d) eqn:Hm; [reflexivity|].
    symmetry. apply Hs; [exact Hm|].
    destruct q; try reflexivity. simpl.
    rewrite Hm, orb_false_r in Hp. exact Hp.
Qed.

Lemma written_unselected d s target :
  synced d s -> isModified P_password d = false ->
  _id target = _id s -> password target = password s ->
  (forall q, q <> P_password -> getPath q (fields d) = getPath q target) ->
  written d s = target.
Proof.
  intros Hs Hm Hid Hp Hq. apply user_ext.
  - now rewrite written_id.
  - intros q. destruct (Path_eqb q P_password) eqn:E.
    + apply Path_eqb_eq in E; subst q. rewrite written_get, Hm.
      simpl. now rewrite Hp.
    + assert (Hne : q <> P_password)
        by (intros ->; now rewrite Path_eqb_refl in E).
      rewrite written_visible; auto. now destruct q.
Qed.

Lemma synced_saved d s :
  synced d s ->
  synced (mkDoc (fields d) false [] (passwordSelected d)) (written d s).
Proof.
  intros Hs. split; [reflexivity|]. split.
  - simpl. rewrite written_id. apply Hs.
  - intros q _ Hv. simpl. symmetry. now apply written_visible.
Qed.

Section SaveOutcome.

Variable X : Externals.

(** The forward direction of [save_existing]. *)
Lemma save_existing_ok v salt now d dp db s :
  synced d s -> find (byId (_id s)) db = Some s ->
  (v = true -> validate X d = []) ->
  preSave X salt now d = inr dp ->
  save X v salt now d db
  = inr (mkDoc (fields dp) false [] (passwordSelected dp),
         updateOne (_id s) (fun _ => written dp s) db).
Proof.
  intros Hs Hf Hv Hp.
  pose proof (synced_preSave X _ _ _ _ _ Hs Hp) as Hsp.
  destruct (write_existing dp s db) as (Hdb & _); [apply Hsp|exact Hf|].
  destruct Hsp as (Hn & _).
  unfold save. destruct v.
  - rewrite (Hv eq_refl). simpl. rewrite Hp. simpl. now rewrite Hn, Hdb.
  - simpl. rewrite Hp. simpl. now rewrite Hn, Hdb.
Qed.


End SaveOutcome.

(** ** Forgot-password *)

Lemma findOne_some filter sel db d :
  findOne filter sel db = Some d ->
  exists s, find filter db = Some s /\ d = hydrate sel s.
Proof.
  unfold findOne. destruct (find filter db) as [s|]; simpl; [|discriminate].
  intros E; inversion E. now exists s.
Qed.

Section Forgot.

Variable X : Externals.

(** The document that carries a freshly issued reset token. *)
Lemma createPasswordResetToken_doc randomBytes now d :
  createPasswordResetToken X randomBytes now d
  = (randomBytes,
     set_passwordResetExpires (Some (now + 10 * 60 * 1000))
       (set_passwordResetToken (Some (sha256_hex X randomBytes)) d)).
Proof. reflexivity. Qed.

Lemma issue_written randomBytes now s d :
  d = set_passwordResetExpires (Some (now + 10 * 60 * 1000))
        (set_passwordResetToken (Some (sha256_hex X randomBytes))
           (hydrate false s)) ->
  synced d s
  /\ isModified P_password d = false
  /\ written d s
     = issued (sha256_hex X randomBytes) (now + 10 * 60 * 1000) s.
Proof.
  intros Hd.
  assert (Hs : synced d s) by (subst d; auto with synced).
  assert (Hm : isModified P_password d = false).
  { subst d. unfold set_passwordResetExpires, set_passwordResetToken.
    rewrite !isModified_assign_other by discriminate. reflexivity. }
  split; [exact Hs|]. split; [exact Hm|].
  apply written_unselected; auto.
  intros q Hq. subst d. destruct q; try reflexivity. now contradiction Hq.
Qed.

(** [forgetPassword] for a known email, in closed form: the stored record
    ends up [issued] when the mail went out and [cleared] when it failed. *)
Lemma forgetPassword_found e randomBytes now salt mailSent db s :
  find (byEmail X e) db = Some s -> find (byId (_id s)) db = Some s ->
  forgetPassword X e randomBytes now salt mailSent db
  = if mailSent then
      (Responded 200
         (mkBody "success" None None (Some "Token sent to email.")),
       updateOne (_id s)
         (fun _ => issued (sha256_hex X randomBytes) (now + 10 * 60 * 1000) s)
         db)
    else
      (NextError DeliveryError, updateOne (_id s) (fun _ => cleared s) db).
Proof.
  intros He Hi. unfold forgetPassword, findOne. rewrite He. cbn [option_map].
  rewrite createPasswordResetToken_doc.
  set (d := set_passwordResetExpires _ _).
  destruct (issue_written randomBytes now s d eq_refl) as (Hs & Hm & Hw).
  set (s1 := issued _ _ s) in *.
  rewrite (save_existing_ok X false salt now d d db s Hs Hi)
    by (discriminate || now apply preSave_unmodified).
  rewrite Hw. destruct mailSent; [reflexivity|].
  set (d1 := mkDoc (fields d) false [] (passwordSelected d)).
  set (d2 := set_passwordResetExpires None (set_passwordResetToken None d1)).
  set (db1 := updateOne (_id s) (fun _ => s1) db).
  assert (Hs1 : synced d1 s1).
  { subst d1. rewrite <- Hw. now apply synced_saved. }
  assert (Hs2 : synced d2 s1) by (subst d2; auto with synced).
  assert (Hi1 : find (byId (_id s1)) db1 = Some s1).
  { subst db1. change (_id s1) with (_id s).
    rewrite find_updateOne_byId by reflexivity. now rewrite Hi. }
  assert (Hm2 : isModified P_password d2 = false).
  { subst d2. unfold set_passwordResetExpires, set_passwordResetToken.
    rewrite !isModified_assign_other by discriminate. reflexivity. }
  rewrite (save_existing_ok X false salt now d2 d2 db1 s1 Hs2 Hi1)
    by (discriminate || now apply preSave_unmodified).
  assert (Hw2 : written d2 s1 = cleared s).
  { apply written_unselected; auto.
    intros q Hq. subst d2 d1 d.
    destruct q; try reflexivity. now contradiction Hq. }
  rewrite Hw2. subst db1. change (_id s1) with (_id s).
  now rewrite updateOne_updateOne by reflexivity.
Qed.

End Forgot.

(** ** Reset-token matching *)

Lemma byResetToken_true hashedToken now u :
  byResetToken hashedToken now u = true <->
  passwordResetToken u = Some hashedToken
  /\ exists expires, passwordResetExpires u = Some expires /\ now < expires.
Proof.
  unfold byResetToken. rewrite andb_true_iff, opt_string_eqb_eq.
  destruct (passwordResetExpires u) as [t|].
  - rewrite Z.ltb_lt. split.
    + intros [H1 H2]. split; [exact H1|]. now exists t.
    + intros [H1 (t' & E & H2)]. inversion E; subst. now split.
  - split; [intros [_ H]; discriminate|].
    intros [_ (t' & E & _)]. discriminate.
Qed.

Lemma byResetToken_issued presented hashedToken expires now s :
  byResetToken presented now (issued hashedToken expires s) = true <->
  presented = hashedToken /\ now < expires.
Proof.
  rewrite byResetToken_true. simpl. split.
  - intros [E (t & E' & H)]. inversion E; inversion E'; subst. now split.
  - intros [-> H]. split; [reflexivity|]. now exists expires.
Qed.

Lemma byResetToken_cleared presented now s :
  passwordResetToken s = None -> byResetToken presented now s = false.
Proof. unfold byResetToken. now intros ->. Qed.

Section ResetLookup.

Variable X : Externals.

Lemma save_error_kind v salt now d db e :
  save X v salt now d db = inl e ->
  (exists errs, e = ValidationError errs)
  \/ e = IllegalArguments \/ e = DuplicateKey.
Proof.
  unfold save.
  destruct v; [destruct (validate X d) eqn:Ev|]; simpl.
  2: { intros E; inversion E. left. eauto. }
  all: unfold preSave.
  all: destruct (isModified P_password d); simpl.
  all: try (destruct (password (fields d)); simpl;
            [|intros E; inversion E; now (right; left)]).
  all: try (destruct (isNew d); simpl).
  all: unfold insertOne; simpl.
  all: repeat match goal with
       | |- context [if ?b then _ else _] => destruct b; simpl
       end.
  all: intros E; inversion E; now (right; right).
Qed.

Lemma resetPassword_unmatched p_token b_password b_passwordConfirm now salt
    saveNow tnow db :
  find (byResetToken (sha256_hex X p_token) now) db = None ->
  resetPassword X p_token b_password b_passwordConfirm now salt saveNow tnow db
  = (NextError InvalidOrExpiredToken, db).
Proof. intros H. unfold resetPassword, findOne. now rewrite H. Qed.

Lemma resetPassword_matched p_token b_password b_passwordConfirm now salt
    saveNow tnow db s :
  find (byResetToken (sha256_hex X p_token) now) db = Some s ->
  fst (resetPassword X p_token b_password b_passwordConfirm now salt saveNow
                     tnow db)
  <> NextError InvalidOrExpiredToken.
Proof.
  intros H. unfold resetPassword, findOne. rewrite H. cbn [option_map].
  destruct (save X true salt saveNow _ db) as [e|[u db']] eqn:Es; cbn [fst].
  - apply save_error_kind in Es.
    destruct Es as [(errs & ->)|[->| ->]]; discriminate.
  - discriminate.
Qed.

(** In a collection where only [s] has a reset pending, the reset lookup
    finds [s] or nothing. *)
Lemma find_onlyPending hashedToken now db s :
  onlyPending s db ->
  find (byResetToken hashedToken now) db
  = if byResetToken hashedToken now s then Some s else None.
Proof.
  intros [Hin Honly].
  destruct (find (byResetToken hashedToken now) db) as [v|] eqn:Hf.
  - apply find_some in Hf as [Hv Hb].
    assert (v = s).
    { apply Honly; [exact Hv|].
      apply byResetToken_true in Hb as [Hb _]. now rewrite Hb. }
    subst v. now rewrite Hb.
  - now rewrite (find_none _ _ Hf s Hin).
Qed.

End ResetLookup.

(** C5: for the pair (digest, expiry) that issuing a reset token with raw
    value [raw] stores, presenting [raw] at time [now] passes the lookup of
    reset-password exactly when [now] is before the stored expiry, and
    presenting a value with another digest fails whatever the expiry, the
    match being on the SHA-256 digest of the presented value. *)
Theorem reset_token_round_trip (X : Externals) randomBytes t0 d raw d' s :
  createPasswordResetToken X randomBytes t0 d = (raw, d') ->
  passwordResetToken s = passwordResetToken (fields d') ->
  passwordResetExpires s = passwordResetExpires (fields d') ->
  exists storedExpiry,
    passwordResetToken s = Some (sha256_hex X raw)
    /\ passwordResetExpires s = Some storedExpiry
    /\ storedExpiry = t0 + 10 * 60 * 1000
    /\ (forall now,
          byResetToken (sha256_hex X raw) now s = true <-> now < storedExpiry)
    /\ (forall presented now,
          sha256_hex X presented <> sha256_hex X raw ->
          byResetToken (sha256_hex X presented) now s = false)
    /\ (forall db b_password b_passwordConfirm now salt saveNow tnow,
          onlyPending s db ->
          (now < storedExpiry <->
           fst (resetPassword X raw b_password b_passwordConfirm now salt
                              saveNow tnow db)
           <> NextError InvalidOrExpiredToken)
          /\ (forall presented,
                sha256_hex X presented <> sha256_hex X raw ->
                resetPassword X presented b_password b_passwordConfirm now
                              salt saveNow tnow db
                = (NextError InvalidOrExpiredToken, db))).
Proof.
  rewrite createPasswordResetToken_doc. intros E Ht He.
  inversion E; subst raw d'. clear E. simpl in Ht, He.
  exists (t0 + 10 * 60 * 1000).
  assert (Hraw : forall now,
             byResetToken (sha256_hex X randomBytes) now s = true
             <-> now < t0 + 10 * 60 * 1000).
  { intros now. rewrite byResetToken_true, Ht, He. split.
    - intros [_ (t & E & H)]. inversion E; subst. exact H.
    - intros H. split; [reflexivity|]. eauto. }
  assert (Hother : forall presented now,
             sha256_hex X presented <> sha256_hex X randomBytes ->
             byResetToken (sha256_hex X presented) now s = false).
  { intros presented now Hne. apply not_true_iff_false.
    rewrite byResetToken_true, Ht. intros [E _]. inversion E.
    now apply Hne. }
  split; [exact Ht|]. split; [exact He|]. split; [reflexivity|].
  split; [exact Hraw|]. split; [exact Hother|].
  intros db b_password b_passwordConfirm now salt saveNow tnow Hp.
  split; [split|].
  - intros Hlt. apply resetPassword_matched with (s := s).
    rewrite (find_onlyPending _ _ _ _ Hp).
    now rewrite (proj2 (Hraw now) Hlt).
  - intros Hok. apply Hraw.
    destruct (byResetToken (sha256_hex X randomBytes) now s) eqn:Hb;
      [reflexivity|].
    exfalso. apply Hok. rewrite resetPassword_unmatched; [reflexivity|].
    now rewrite (find_onlyPending _ _ _ _ Hp), Hb.
  - intros presented Hne. apply resetPassword_unmatched.
    now rewrite (find_onlyPending _ _ _ _ Hp), Hother.
Qed.

Lemma reset_token_round_trip_witness :
  byResetToken (sha256_hex Ref.X "r1") 2000
               (issued "sha256:r1" 601000 Ref.u1) = true
  /\ byResetToken (sha256_hex Ref.X "r2") 2000
                  (issued "sha256:r1" 601000 Ref.u1) = false
  /\ fst (resetPassword Ref.X "r1" (Some "newpass1") (Some "newpass1") 2000
                        "bbbbb" 2001 2002 [issued "sha256:r1" 601000 Ref.u1])
     <> NextError InvalidOrExpiredToken
  /\ resetPassword Ref.X "r2" (Some "newpass1") (Some "newpass1") 2000
                   "bbbbb" 2001 2002 [issued "sha256:r1" 601000 Ref.u1]
     = (NextError InvalidOrExpiredToken, [issued "sha256:r1" 601000 Ref.u1]).
Proof.
  destruct (reset_token_round_trip Ref.X "r1" 1000 (hydrate false Ref.u1) "r1"
              (snd (createPasswordResetToken Ref.X "r1" 1000
                      (hydrate false Ref.u1)))
              (issued "sha256:r1" 601000 Ref.u1)
              eq_refl eq_refl eq_refl)
    as (storedExpiry & _ & _ & Hexp & Hraw & Hother & Hdb).
  assert (Hp : onlyPending (issued "sha256:r1" 601000 Ref.u1)
                           [issued "sha256:r1" 601000 Ref.u1]).
  { split; [now left|]. intros v [<-|[]] _. reflexivity. }
  assert (Hne : sha256_hex Ref.X "r2" <> sha256_hex Ref.X "r1")
    by discriminate.
  destruct (Hdb [issued "sha256:r1" 601000 Ref.u1] (Some "newpass1")
                (Some "newpass1") 2000 "bbbbb" 2001 2002 Hp) as [H1 H2].
  split; [apply Hraw; subst storedExpiry; reflexivity|].
  split; [now apply Hother|].
  split; [apply H1; subst storedExpiry; reflexivity|].
  now apply H2.
Defined.

(** C6: when the dispatch of the reset mail fails, forgot-password unsets
    both reset fields of the user, persists that, and fails with
    [DeliveryError] (503); every record of the resulting collection is the
    user's cleared record or a record that was there before, so none holds
    the digest of the undelivered token on account of this request. *)
Theorem forgetPassword_failed_dispatch_clears (X : Externals) e randomBytes
    now salt db s :
  uniqueIds db -> find (byEmail X e) db = Some s ->
  exists db',
    forgetPassword X e randomBytes now salt false db
    = (NextError DeliveryError, db')
    /\ find (byId (_id s)) db' = Some (cleared s)
    /\ passwordResetToken (cleared s) = None
    /\ passwordResetExpires (cleared s) = None
    /\ (forall v, In v db' -> v = cleared s \/ In v db).
Proof.
  intros Hu He.
  assert (Hin : In s db) by (apply find_some in He; tauto).
  pose proof (uniqueIds_find db s Hu Hin) as Hi.
  exists (updateOne (_id s) (fun _ => cleared s) db).
  split; [now rewrite (forgetPassword_found X e randomBytes now salt false
                         db s He Hi)|].
  split; [rewrite find_updateOne_byId by reflexivity; now rewrite Hi|].
  split; [reflexivity|]. split; [reflexivity|].
  intros v Hv. apply In_updateOne in Hv; [|exact Hu].
  destruct Hv as [(s0 & _ & ->)|[Hv _]]; [now left|now right].
Qed.

Lemma forgetPassword_failed_dispatch_clears_witness :
  exists db',
    forgetPassword Ref.X (Some "ann@jobs.hub") "r1" 1000 "s" false Ref.db1
    = (NextError DeliveryError, db')
    /\ find (byId (_id Ref.u1)) db' = Some (cleared Ref.u1)
    /\ passwordResetToken (cleared Ref.u1) = None
    /\ passwordResetExpires (cleared Ref.u1) = None
    /\ (forall v, In v db' -> v = cleared Ref.u1 \/ In v Ref.db1).
Proof.
  apply (forgetPassword_failed_dispatch_clears Ref.X (Some "ann@jobs.hub")
           "r1" 1000 "s" Ref.db1 Ref.u1).
  - repeat constructor. simpl. tauto.
  - reflexivity.
Defined.

(** C8: a user record holds one reset pair; issuing a second reset token
    for the same user overwrites the stored digest and expiry, so a
    presented value matches only through the digest of the latest raw
    token and before the latest expiry, and the first raw token no longer
    matches. *)
Theorem second_issue_overwrites_first (X : Externals) e raw1 t1 salt1
    raw2 t2 salt2 db s :
  uniqueIds db -> find (byEmail X e) db = Some s ->
  sha256_hex X raw1 <> sha256_hex X raw2 ->
  exists db1 db2 stored,
    snd (forgetPassword X e raw1 t1 salt1 true db) = db1
    /\ find (byId (_id s)) db1
       = Some (issued (sha256_hex X raw1) (t1 + 10 * 60 * 1000) s)
    /\ snd (forgetPassword X e raw2 t2 salt2 true db1) = db2
    /\ find (byId (_id s)) db2 = Some stored
    /\ stored = issued (sha256_hex X raw2) (t2 + 10 * 60 * 1000) s
    /\ (forall presented now,
          byResetToken (sha256_hex X presented) now stored = true <->
          sha256_hex X presented = sha256_hex X raw2
          /\ now < t2 + 10 * 60 * 1000)
    /\ (forall now, byResetToken (sha256_hex X raw1) now stored = false).
Proof.
  intros Hu He Hne.
  assert (Hin : In s db) by (apply find_some in He; tauto).
  pose proof (uniqueIds_find db s Hu Hin) as Hi.
  set (s1 := issued (sha256_hex X raw1) (t1 + 10 * 60 * 1000) s).
  set (s2 := issued (sha256_hex X raw2) (t2 + 10 * 60 * 1000) s).
  set (db1 := updateOne (_id s) (fun _ => s1) db).
  assert (Hi1 : find (byId (_id s1)) db1 = Some s1).
  { subst db1. change (_id s1) with (_id s).
    rewrite find_updateOne_byId by reflexivity. now rewrite Hi. }
  assert (He1 : find (byEmail X e) db1 = Some s1).
  { apply find_updateOne_keep; auto.
    apply find_some in He as [_ He]. exact He. }
  exists db1, (updateOne (_id s) (fun _ => s2) db1), s2.
  split; [now rewrite (forgetPassword_found X e raw1 t1 salt1 true db s)|].
  split; [exact Hi1|].
  split; [now rewrite (forgetPassword_found X e raw2 t2 salt2 true db1 s1)|].
  split; [rewrite find_updateOne_byId by reflexivity;
          change (_id s) with (_id s1); now rewrite Hi1|].
  split; [reflexivity|].
  split; [intros presented now; apply byResetToken_issued|].
  intros now. apply not_true_iff_false.
  unfold s2. rewrite byResetToken_issued. tauto.
Qed.

Lemma second_issue_overwrites_first_witness :
  exists db1 db2 stored,
    snd (forgetPassword Ref.X (Some "ann@jobs.hub") "r1" 1000 "s" true
                        Ref.db1) = db1
    /\ find (byId (_id Ref.u1)) db1
       = Some (issued (sha256_hex Ref.X "r1") (1000 + 10 * 60 * 1000) Ref.u1)
    /\ snd (forgetPassword Ref.X (Some "ann@jobs.hub") "r2" 5000 "s" true db1)
       = db2
    /\ find (byId (_id Ref.u1)) db2 = Some stored
    /\ stored = issued (sha256_hex Ref.X "r2") (5000 + 10 * 60 * 1000) Ref.u1
    /\ (forall presented now,
          byResetToken (sha256_hex Ref.X presented) now stored = true <->
          sha256_hex Ref.X presented = sha256_hex Ref.X "r2"
          /\ now < 5000 + 10 * 60 * 1000)
    /\ (forall now, byResetToken (sha256_hex Ref.X "r1") now stored = false).
Proof.
  apply (second_issue_overwrites_first Ref.X (Some "ann@jobs.hub")
           "r1" 1000 "s" "r2" 5000 "s" Ref.db1 Ref.u1).
  - repeat constructor. simpl. tauto.
  - reflexivity.
  - discriminate.
Defined.

(** ** Password changes *)

Lemma find_all_false (P : User -> bool) db :
  (forall v, In v db -> P v = false) -> find P db = None.
Proof.
  intros H. destruct (find P db) as [v|] eqn:E; [|reflexivity].
  apply find_some in E as [Hin Hv]. rewrite (H v Hin) in Hv. discriminate.
Qed.


Lemma long_enough_valid p :
  (6 <= jsLength p)%nat ->
  required (Some p) && minlength 6 p = true.
Proof.
  intros H. apply andb_true_iff. split.
  - destruct p; [simpl in H; lia|reflexivity].
  - now apply Nat.leb_le.
Qed.

Section PasswordChange.

Variable X : Externals.

Lemma resetDoc_modified b_password b_passwordConfirm s :
  isModified P_password (resetDoc b_password b_passwordConfirm s) = true.
Proof.
  unfold resetDoc, set_passwordResetExpires, set_passwordResetToken,
    set_passwordConfirm.
  do 3 apply isModified_assign_mono.
  unfold set_password.
  replace (negb (opt_string_eqb b_password
                   (password (fields (hydrate false s))))
           || is_none b_password && negb (passwordSelected (hydrate false s)))
    with true by (now destruct b_password).
  apply isModified_assign_changed.
Qed.

Lemma updateDoc_modified b_password b_passwordConfirm s :
  b_password <> password s ->
  isModified P_password (updateDoc b_password b_passwordConfirm s) = true.
Proof.
  intros Hne. unfold updateDoc, set_passwordConfirm.
  apply isModified_assign_mono. unfold set_password.
  replace (negb (opt_string_eqb b_password
                   (password (fields (hydrate true s))))
           || is_none b_password && negb (passwordSelected (hydrate true s)))
    with true; [apply isModified_assign_changed|].
  simpl. destruct (opt_string_eqb b_password (password s)) eqn:E;
    [|reflexivity].
  apply opt_string_eqb_eq in E. contradiction.
Qed.

Lemma resetPassword_found p_token b_password b_passwordConfirm now salt
    saveNow tnow db s :
  find (byResetToken (sha256_hex X p_token) now) db = Some s ->
  resetPassword X p_token b_password b_passwordConfirm now salt saveNow tnow db
  = match save X true salt saveNow
               (resetDoc b_password b_passwordConfirm s) db with
    | inl e => (NextError e, db)
    | inr (u, db') =>
        (sendTokenResponse X tnow (fields (set_password None u)) 200, db')
    end.
Proof.
  intros H. unfold resetPassword, findOne. rewrite H. reflexivity.
Qed.

Lemma updatePassword_found reqUser b_current b_password b_passwordConfirm
    salt saveNow tnow db s :
  find (byId (_id reqUser)) db = Some s ->
  passwordMatching X b_current (password s) = inr true ->
  updatePassword X reqUser b_current b_password b_passwordConfirm salt saveNow
                 tnow db
  = match save X true salt saveNow
               (updateDoc b_password b_passwordConfirm s) db with
    | inl e => (NextError e, db)
    | inr (u, db') =>
        (sendTokenResponse X tnow (fields (set_password None u)) 200, db')
    end.
Proof.
  intros H Hm. unfold updatePassword, findById, findOne.
  fold (byId (_id reqUser)). rewrite H. cbn [option_map hydrate fields].
  rewrite Hm. reflexivity.
Qed.

(** A save that hashes a modified password stores the backdated
    timestamp. *)
Lemma save_password_change v salt now d db d' db' s :
  synced d s -> find (byId (_id s)) db = Some s ->
  isModified P_password d = true ->
  save X v salt now d db = inr (d', db') ->
  exists stored,
    find (byId (_id s)) db' = Some stored
    /\ passwordChangedAt stored = Some (now - 1000).
Proof.
  intros Hs Hf Hm Hsave.
  destruct (save_existing X v salt now d db d' db' s Hs Hf Hsave)
    as (dp & Hp & Hsp & _ & _ & _ & Hfind).
  exists (written dp s). split; [exact Hfind|].
  assert (Hc : passwordChangedAt (fields dp) = Some (now - 1000)).
  { destruct (password (fields d)) as [plain|] eqn:Epw.
    - rewrite (preSave_modified X salt now d plain Hm (proj1 Hs) Epw) in Hp.
      inversion Hp. reflexivity.
    - unfold preSave in Hp. rewrite Hm, Epw in Hp. discriminate. }
  pose proof (written_visible dp s P_passwordChangedAt Hsp eq_refl) as Hw.
  simpl in Hw. congruence.
Qed.

End PasswordChange.

(** C2, as the code has it: the save that changes a password at clock
    reading [t1] (milliseconds) stores the timestamp [t1 - 1000], so
    [protect] fails with [StalePassword] for every verified token of that
    user issued more than one second before the change, that is with
    [iat * 1000 < t1 - 1000]; a token issued within that last second is not
    covered. *)
Theorem stale_after_password_change (X : Externals) uid t1 db db' auth clock
    t dec :
  uniqueIds db ->
  passwordChangedBy X uid t1 db db' ->
  bearerToken auth = Some t -> t <> "" ->
  jwt_verify X t clock = Some dec -> id dec = uid ->
  iat dec * 1000 < t1 - 1000 ->
  protect X auth clock db' = NextError StalePassword.
Proof.
  intros Hu Hch Ht Hne Hv Hid Hlt.
  assert (Hst : exists stored,
             find (byId uid) db' = Some stored
             /\ passwordChangedAt stored = Some (t1 - 1000)).
  { destruct Hch as
        [(p_token & bp & bpc & now & salt & tnow & code & body & s
          & Hf & Hs & Hr)
        |(reqUser & cur & bp & bpc & salt & tnow & code & body & s
          & Hr0 & Hf & Hnew & Hr)].
    - assert (Hin : In s db) by (apply find_some in Hf; tauto).
      pose proof (uniqueIds_find db s Hu Hin) as Hi.
      rewrite (resetPassword_found X _ _ _ _ _ _ _ _ s Hf) in Hr.
      destruct (save X true salt t1 (resetDoc bp bpc s) db)
        as [e|[u db1]] eqn:Es; [discriminate|].
      inversion Hr; subst db1. rewrite <- Hs.
      apply (save_password_change X true salt t1 (resetDoc bp bpc s) db u
               db' s); auto.
      + unfold resetDoc. auto 10 with synced.
      + apply resetDoc_modified.
    - assert (Hi : find (byId (_id s)) db = Some s).
      { pose proof (find_some _ _ Hf) as [_ Hb]. unfold byId in Hb.
        apply String.eqb_eq in Hb. now rewrite Hb. }
      subst uid. unfold updatePassword, findById, findOne in Hr.
      fold (byId (_id reqUser)) in Hr. rewrite Hf in Hr.
      cbn [option_map hydrate fields] in Hr.
      destruct (passwordMatching X cur (password s)) as [e|[|]];
        cbn [negb] in Hr; try discriminate.
      fold (updateDoc bp bpc s) in Hr.
      destruct (save X true salt t1 (updateDoc bp bpc s) db)
        as [e|[u db1]] eqn:Es; [discriminate|].
      inversion Hr; subst db1.
      assert (Hrid : _id reqUser = _id s).
      { pose proof (find_some _ _ Hf) as [_ Hb]. unfold byId in Hb.
        apply String.eqb_eq in Hb. now symmetry. }
      rewrite Hrid.
      apply (save_password_change X true salt t1 (updateDoc bp bpc s) db u
               db' s); auto.
      + unfold updateDoc. auto with synced.
      + now apply updateDoc_modified. }
  destruct Hst as (stored & Hf & Hc).
  rewrite (protect_verified X auth clock db' t dec Ht Hne Hv), Hid, Hf.
  assert (H : changedPasswordAfter stored (iat dec) = true)
    by (apply changedPasswordAfter_true; eauto).
  now rewrite H.
Qed.

Lemma stale_after_password_change_witness :
  protect Ref.X (Some "Bearer t8") 10002
          (snd (updatePassword Ref.X Ref.u1 (Some "oldpass") (Some "newpass1")
                               (Some "newpass1") "bbbbb" 10000 10001 Ref.db1))
  = NextError StalePassword.
Proof.
  apply (stale_after_password_change Ref.X "u1" 10000 Ref.db1 _
           (Some "Bearer t8") 10002 "t8" (mkDecoded "u1" 8)).
  - repeat constructor. simpl. tauto.
  - right.
    exists Ref.u1, (Some "oldpass"), (Some "newpass1"), (Some "newpass1"),
           "bbbbb", 10001.
    eexists _, _, Ref.u1.
    split; [reflexivity|]. split; [reflexivity|].
    split; [discriminate|]. reflexivity.
  - reflexivity.
  - discriminate.
  - reflexivity.
  - reflexivity.
  - simpl. lia.
Defined.

(** C2 as stated fails: the password of [u1] is changed at [t1 = 10000] ms
    and the token [t9], of [u1], was issued at second 9, before the change;
    [protect] forwards it. *)
Lemma token_of_last_second_not_stale :
  let db' :=
    snd (updatePassword Ref.X Ref.u1 (Some "oldpass") (Some "newpass1")
                        (Some "newpass1") "bbbbb" 10000 10001 Ref.db1) in
  passwordChangedBy Ref.X "u1" 10000 Ref.db1 db'
  /\ jwt_verify Ref.X "t9" 10002 = Some (mkDecoded "u1" 9)
  /\ 9 * 1000 < 10000
  /\ protect Ref.X (Some "Bearer t9") 10002 db' <> NextError StalePassword.
Proof.
  split; [|split; [reflexivity|split; [reflexivity|]]].
  - right.
    exists Ref.u1, (Some "oldpass"), (Some "newpass1"), (Some "newpass1"),
           "bbbbb", 10001.
    eexists _, _, Ref.u1.
    split; [reflexivity|]. split; [reflexivity|].
    split; [discriminate|]. reflexivity.
  - vm_compute. discriminate.
Qed.

(** ** Reset-password *)

Section Reset.

Variable X : Externals.

(** Reset-password with a matching token and a valid new password, in
    closed form. *)
Lemma resetPassword_valid p_token p now salt saveNow tnow db s :
  find (byResetToken (sha256_hex X p_token) now) db = Some s ->
  find (byId (_id s)) db = Some s ->
  validIdentity X s -> (6 <= jsLength p)%nat ->
  resetPassword X p_token (Some p) (Some p) now salt saveNow tnow db
  = (sendTokenResponse X tnow
       (with_password None
          (rehashed (bcrypt_hash X p salt) (saveNow - 1000) (cleared s)))
       200,
     updateOne (_id s)
       (fun _ => rehashed (bcrypt_hash X p salt) (saveNow - 1000) (cleared s))
       db).
Proof.
  intros Hf Hi (Hname & Hemail & HisEmail) Hlen.
  rewrite (resetPassword_found X _ _ _ _ _ _ _ _ s Hf).
  set (d := resetDoc (Some p) (Some p) s).
  assert (Hs : synced d s) by (unfold d, resetDoc; auto 10 with synced).
  assert (Hm : isModified P_password d = true) by apply resetDoc_modified.
  assert (Hval : validate X d = []).
  { apply validate_nil. repeat split.
    - exact Hname.
    - unfold validPath. change (email (fields d)) with (email s).
      rewrite Hemail. destruct (email s); [exact HisEmail|reflexivity].
    - unfold validPath. rewrite Hm, orb_true_r.
      change (password (fields d)) with (Some p).
      now apply long_enough_valid.
    - unfold validPath. change (passwordConfirm (fields d)) with (Some p).
      change (password (fields d)) with (Some p).
      rewrite opt_string_eqb_refl, andb_true_r.
      pose proof (long_enough_valid p Hlen) as Hreq.
      apply andb_true_iff in Hreq. tauto. }
  pose proof (preSave_modified X salt saveNow d p Hm (proj1 Hs) eq_refl) as Hp.
  set (dp := set_passwordChangedAt _ _) in Hp.
  rewrite (save_existing_ok X true salt saveNow d dp db s Hs Hi (fun _ => Hval)
             Hp).
  assert (Hsp : synced dp s) by (apply (synced_preSave X _ _ _ _ _ Hs Hp)).
  assert (Hw : written dp s = fields dp).
  { apply written_shown; [exact Hsp|].
    unfold dp, set_passwordChangedAt, set_passwordConfirm, set_password.
    apply orb_true_iff. right.
    do 3 apply isModified_assign_mono. exact Hm. }
  rewrite Hw. reflexivity.
Qed.

End Reset.

(** C7: reset-password called twice with the same raw token, the token
    being valid at the first call and the new password acceptable (at
    least 6 UTF-16 code units, confirmed): the
    first call succeeds, stores the hash of the new password and unsets the
    stored reset digest and expiry; the second call, whatever its clock
    reading and body, fails with [InvalidOrExpiredToken] (400). *)
Theorem reset_token_single_use (X : Externals) raw p now salt saveNow tnow
    db s :
  uniqueIds db -> soleHolder (sha256_hex X raw) db ->
  find (byResetToken (sha256_hex X raw) now) db = Some s ->
  validIdentity X s -> (6 <= jsLength p)%nat ->
  exists stored db1,
    resetPassword X raw (Some p) (Some p) now salt saveNow tnow db
    = (Responded 200
         (mkBody "success" (Some (createToken X tnow (_id s)))
                 (Some (with_password None stored)) None),
       db1)
    /\ find (byId (_id s)) db1 = Some stored
    /\ password stored = Some (bcrypt_hash X p salt)
    /\ passwordResetToken stored = None
    /\ passwordResetExpires stored = None
    /\ forall b_password b_passwordConfirm now2 salt2 saveNow2 tnow2,
         resetPassword X raw b_password b_passwordConfirm now2 salt2 saveNow2
                       tnow2 db1
         = (NextError InvalidOrExpiredToken, db1).
Proof.
  intros Hu Hsole Hf Hvalid Hlen.
  pose proof (find_some _ _ Hf) as [Hin Hb].
  pose proof (uniqueIds_find db s Hu Hin) as Hi.
  apply byResetToken_true in Hb as [Htok _].
  set (stored := rehashed (bcrypt_hash X p salt) (saveNow - 1000) (cleared s)).
  exists stored, (updateOne (_id s) (fun _ => stored) db).
  split; [now rewrite (resetPassword_valid X raw p now salt saveNow tnow db s)|].
  split; [rewrite find_updateOne_byId by reflexivity; now rewrite Hi|].
  split; [reflexivity|]. split; [reflexivity|]. split; [reflexivity|].
  intros b_password b_passwordConfirm now2 salt2 saveNow2 tnow2.
  apply resetPassword_unmatched. apply find_all_false.
  intros v Hv. apply In_updateOne in Hv; [|exact Hu].
  destruct Hv as [(s0 & _ & ->)|[Hv Hne]].
  - now apply byResetToken_cleared.
  - apply not_true_iff_false. intros Hbv.
    apply byResetToken_true in Hbv as [Htv _].
    apply Hne. now rewrite (Hsole v s Hv Hin Htv Htok).
Qed.

Lemma reset_token_single_use_witness :
  exists stored db1,
    resetPassword Ref.X "r1" (Some "newpass1") (Some "newpass1") 2000 "bbbbb"
                  2001 2002 [issued "sha256:r1" 601000 Ref.u1]
    = (Responded 200
         (mkBody "success" (Some (createToken Ref.X 2002 "u1"))
                 (Some (with_password None stored)) None),
       db1)
    /\ find (byId "u1") db1 = Some stored
    /\ password stored = Some (bcrypt_hash Ref.X "newpass1" "bbbbb")
    /\ passwordResetToken stored = None
    /\ passwordResetExpires stored = None
    /\ forall b_password b_passwordConfirm now2 salt2 saveNow2 tnow2,
         resetPassword Ref.X "r1" b_password b_passwordConfirm now2 salt2
                       saveNow2 tnow2 db1
         = (NextError InvalidOrExpiredToken, db1).
Proof.
  apply (reset_token_single_use Ref.X "r1" "newpass1" 2000 "bbbbb" 2001 2002
           [issued "sha256:r1" 601000 Ref.u1]
           (issued "sha256:r1" 601000 Ref.u1)).
  - repeat constructor. simpl. tauto.
  - intros v w [<-|[]] [<-|[]] _ _. reflexivity.
  - reflexivity.
  - repeat split; reflexivity.
  - simpl. lia.
Defined.

(** ** The minimum password length *)



(** * Further properties of the controllers and the model *)

(** ** The role gate *)

(** X1: [restrictTo] forwards exactly the users whose role is among the
    permitted ones; every other user is answered 403 "fail", and the answer
    is a response, never an error handed to [next]. *)
Theorem restrictTo_forwards_iff_permitted permittedRoles reqUser :
  (In (roleName (role reqUser)) permittedRoles ->
   restrictTo permittedRoles reqUser = Forward reqUser)
  /\ (~ In (roleName (role reqUser)) permittedRoles ->
      restrictTo permittedRoles reqUser
      = Responded 403
          (mkBody "fail" None None
                  (Some "You don't have permission to perform this action.")))
  /\ (forall e, restrictTo permittedRoles reqUser <> NextError e).
Proof.
  unfold restrictTo.
  destruct (existsb (fun r => (r =? roleName (role reqUser))%string)
                    permittedRoles) eqn:E.
  - split; [reflexivity|]. split; [|discriminate].
    intros Hn. exfalso. apply Hn.
    apply existsb_exists in E as (r & Hin & Hr).
    apply String.eqb_eq in Hr. now subst r.
  - split; [|split; [reflexivity|discriminate]].
    intros Hin. assert (Ht : existsb
      (fun r => (r =? roleName (role reqUser))%string) permittedRoles = true).
    { apply existsb_exists. exists (roleName (role reqUser)).
      split; [exact Hin|apply String.eqb_refl]. }
    rewrite Ht in E. discriminate.
Qed.

Lemma restrictTo_forwards_iff_permitted_witness :
  restrictTo ["admin"; "user"] Ref.u1 = Forward Ref.u1
  /\ restrictTo ["admin"] Ref.u1
     = Responded 403
         (mkBody "fail" None None
                 (Some "You don't have permission to perform this action.")).
Proof.
  split.
  - apply (proj1 (restrictTo_forwards_iff_permitted ["admin"; "user"] Ref.u1)).
    simpl. tauto.
  - apply (proj1 (proj2 (restrictTo_forwards_iff_permitted ["admin"] Ref.u1))).
    simpl. intros [H|[]]. discriminate H.
Defined.

(** X2: the role names a route may list are matched exactly; a gate with
    no permitted role, or with only names that are not roles of the
    schema, rejects every user. *)
Theorem restrictTo_unknown_roles_reject_all permittedRoles :
  ~ In "user" permittedRoles -> ~ In "admin" permittedRoles ->
  forall reqUser,
    restrictTo permittedRoles reqUser
    = Responded 403
        (mkBody "fail" None None
                (Some "You don't have permission to perform this action.")).
Proof.
  intros Hu Ha reqUser. unfold restrictTo.
  destruct (existsb (fun r => (r =? roleName (role reqUser))%string)
                    permittedRoles) eqn:E; [|reflexivity].
  apply existsb_exists in E as (r & Hin & Hr).
  apply String.eqb_eq in Hr. subst r.
  destruct (role reqUser); simpl in Hin; contradiction.
Qed.

Lemma restrictTo_unknown_roles_reject_all_witness :
  restrictTo ["Admin"; "root"] Ref.u1
  = Responded 403
      (mkBody "fail" None None
              (Some "You don't have permission to perform this action.")).
Proof.
  apply restrictTo_unknown_roles_reject_all;
    simpl; intros [H|[H|[]]]; discriminate H.
Defined.

(** ** The bearer header *)

Lemma split_noSpace s : noSpace s = true -> split " " s = [s].
Proof.
  induction s as [|c s IH]; simpl; [reflexivity|].
  intros H. apply andb_true_iff in H as [Hc Hs].
  apply negb_true_iff in Hc. rewrite Hc, (IH Hs). reflexivity.
Qed.

Lemma split_at_first_space a b :
  noSpace a = true -> split " " (a ++ String " " b) = a :: split " " b.
Proof.
  induction a as [|c a IH]; simpl; [reflexivity|].
  intros H. apply andb_true_iff in H as [Hc Ha].
  apply negb_true_iff in Hc. rewrite Hc, (IH Ha). reflexivity.
Qed.

Lemma split_nonempty sep s : split sep s <> [].
Proof.
  destruct s as [|c s]; simpl; [discriminate|].
  destruct (Ascii.eqb c sep); [discriminate|].
  destruct (split sep s); discriminate.
Qed.

Lemma prefix_append a b : prefix a (a ++ b) = true.
Proof.
  induction a as [|c a IH]; simpl; [now destruct b|].
  destruct (ascii_dec c c) as [_|Hn]; [exact IH|now contradiction Hn].
Qed.

(** X3: a header made of a scheme that starts with "Bearer", one space and
    a token without spaces yields that token: what the client sent after
    the scheme is what gets verified. With the scheme "Bearer" itself this
    is the header of the interface. *)
Theorem bearerToken_round_trip scheme t :
  noSpace scheme = true -> noSpace t = true ->
  bearerToken (Some ("Bearer" ++ scheme ++ " " ++ t)) = Some t.
Proof.
  intros Hs Ht. unfold bearerToken.
  set (h := "Bearer" ++ scheme ++ " " ++ t).
  assert (Hp : prefix "Bearer" h = true) by apply prefix_append.
  assert (Hne : (h =? "")%string = false) by reflexivity.
  assert (Hsp : split " " h = [("Bearer" ++ scheme); t]).
  { change h with (("Bearer" ++ scheme) ++ String " " t).
    rewrite split_at_first_space by exact Hs.
    now rewrite split_noSpace. }
  rewrite Hne, Hp, Hsp. reflexivity.
Qed.

Lemma bearerToken_round_trip_witness :
  bearerToken (Some "Bearer abc.def.ghi") = Some "abc.def.ghi"
  /\ bearerToken (Some "BearerX abc.def.ghi") = Some "abc.def.ghi".
Proof.
  split.
  - apply (bearerToken_round_trip "" "abc.def.ghi"); reflexivity.
  - apply (bearerToken_round_trip "X" "abc.def.ghi"); reflexivity.
Defined.

(** X4: a request without an authorization header, with a header that
    does not start with "Bearer", with a header without any space, or with
    a second space right after the scheme (an empty token) is answered
    [Unauthenticated], whatever the verifier and the collection. *)
Theorem protect_rejects_malformed_header (X : Externals) clock db :
  protect X None clock db = NextError Unauthenticated
  /\ (forall h, prefix "Bearer" h = false ->
        protect X (Some h) clock db = NextError Unauthenticated)
  /\ (forall h, noSpace h = true ->
        protect X (Some h) clock db = NextError Unauthenticated)
  /\ (forall scheme rest, noSpace scheme = true ->
        protect X (Some (scheme ++ "  " ++ rest)) clock db
        = NextError Unauthenticated).
Proof.
  split; [reflexivity|]. split; [|split].
  - intros h Hp. unfold protect, bearerToken. rewrite Hp.
    now rewrite andb_false_r.
  - intros h Hn. unfold protect, bearerToken.
    rewrite (split_noSpace h Hn).
    now destruct (negb (h =? "")%string && prefix "Bearer" h).
  - intros scheme rest Hn. unfold protect, bearerToken.
    change (scheme ++ "  " ++ rest)
      with (scheme ++ String " " (String " " rest)).
    rewrite (split_at_first_space scheme _ Hn). cbn [split Ascii.eqb].
    change (Ascii.eqb " " " ") with true. cbn [nth_error].
    now destruct (negb _ && prefix "Bearer" _).
Qed.

Lemma protect_rejects_malformed_header_witness :
  protect Ref.X (Some "Basic dXNlcjpwYXNz") 0 Ref.db1
  = NextError Unauthenticated
  /\ protect Ref.X (Some "Bearer") 0 Ref.db1 = NextError Unauthenticated
  /\ protect Ref.X (Some "Bearer  t8") 0 Ref.db1 = NextError Unauthenticated.
Proof.
  destruct (protect_rejects_malformed_header Ref.X 0 Ref.db1)
    as (_ & H1 & H2 & H3).
  split; [apply H1; reflexivity|].
  split; [apply H2; reflexivity|].
  apply (H3 "Bearer" "t8"). reflexivity.
Defined.

(** X5: [protect] has five outcomes and no other: the three 401 errors,
    the verifier's own error, or forwarding; it never responds itself, and
    the user it attaches is a record of the collection with the id of the
    token and without the password. *)
Theorem protect_outcomes (X : Externals) auth clock db :
  protect X auth clock db = NextError Unauthenticated
  \/ protect X auth clock db = NextError JsonWebTokenError
  \/ protect X auth clock db = NextError UserGone
  \/ protect X auth clock db = NextError StalePassword
  \/ exists t dec u,
       bearerToken auth = Some t
       /\ jwt_verify X t clock = Some dec
       /\ In u db /\ _id u = id dec
       /\ protect X auth clock db = Forward (with_password None u)
       /\ password (with_password None u) = None.
Proof.
  unfold protect.
  destruct (bearerToken auth) as [t|] eqn:Ht; [|now left].
  destruct (t =? "")%string; [now left|].
  destruct (jwt_verify X t clock) as [dec|] eqn:Hv; [|now (right; left)].
  unfold findById, findOne.
  destruct (find (fun u => (_id u =? id dec)%string) db) as [u|] eqn:Hf;
    cbn [option_map hydrate fields]; [|now (right; right; left)].
  destruct (changedPasswordAfter (with_password None u) (iat dec));
    [now (right; right; right; left)|].
  right; right; right; right. exists t, dec, u.
  apply find_some in Hf as [Hin Hid]. apply String.eqb_eq in Hid.
  now repeat split.
Qed.

(** ** The stale-password check, in time units *)

(** X6: the check compares the issued-at second with the stored
    millisecond timestamp exactly ([iat * 1000 < changedAt]); hence a token
    issued no later than a stale token is stale too, and a token issued no
    earlier than an accepted one is accepted. *)
Theorem changedPasswordAfter_monotone this iat1 iat2 :
  iat1 <= iat2 ->
  (changedPasswordAfter this iat2 = true ->
   changedPasswordAfter this iat1 = true)
  /\ (changedPasswordAfter this iat1 = false ->
      changedPasswordAfter this iat2 = false)
  /\ (forall t, passwordChangedAt this = Some t ->
        changedPasswordAfter this iat1 = (iat1 * 1000 <? t)).
Proof.
  intros Hle. split; [|split].
  - rewrite !changedPasswordAfter_true.
    intros (t & E & H). exists t. split; [exact E|lia].
  - rewrite !changedPasswordAfter_false.
    intros [H|(t & E & H)]; [now left|].
    right. exists t. split; [exact E|lia].
  - intros t E.
    destruct (iat1 * 1000 <? t) eqn:Hlt.
    + apply changedPasswordAfter_true. exists t.
      split; [exact E|now apply Z.ltb_lt].
    + apply changedPasswordAfter_false. right. exists t.
      split; [exact E|now apply Z.ltb_ge].
Qed.

Lemma changedPasswordAfter_monotone_witness :
  changedPasswordAfter (with_passwordChangedAt (Some 9000) Ref.u1) 7 = true
  /\ changedPasswordAfter (with_passwordChangedAt (Some 9000) Ref.u1) 10
     = false.
Proof.
  split.
  - apply (proj1 (changedPasswordAfter_monotone
                    (with_passwordChangedAt (Some 9000) Ref.u1) 7 8
                    ltac:(lia))).
    reflexivity.
  - apply (proj1 (proj2 (changedPasswordAfter_monotone
                    (with_passwordChangedAt (Some 9000) Ref.u1) 9 10
                    ltac:(lia)))).
    reflexivity.
Defined.

(** ** How the handlers change the collection *)

Lemma map_updateOne_same {A} (f : User -> A) i db s s' :
  find (byId i) db = Some s -> f s' = f s ->
  map f (updateOne i (fun _ => s') db) = map f db.
Proof.
  intros Hf He. induction db as [|u db IH]; simpl in *; [reflexivity|].
  unfold byId in Hf at 1. destruct (_id u =? i)%string; simpl.
  - inversion Hf; subst. now rewrite He.
  - now rewrite IH.
Qed.

Lemma Forall_updateOne (P : User -> Prop) i db s' :
  Forall P db -> P s' -> Forall P (updateOne i (fun _ => s') db).
Proof.
  intros H Hs'. induction H as [|u db Hu H IH]; simpl; [constructor|].
  destruct (_id u =? i)%string; constructor; auto.
Qed.

Lemma find_app_last (P : User -> bool) db rec :
  (forall v, In v db -> P v = false) -> P rec = true ->
  find P (db ++ [rec]) = Some rec.
Proof.
  intros H Hr. induction db as [|u db IH]; simpl.
  - now rewrite Hr.
  - rewrite (H u (or_introl eq_refl)). apply IH.
    intros v Hv. apply H. now right.
Qed.

Lemma evolves_uniqueIds db db' :
  evolves db db' -> uniqueIds db -> uniqueIds db'.
Proof.
  unfold uniqueIds.
  intros [->|[(rec & -> & Hid & _)|(s & s' & Hf & -> & Hk & _)]] Hu.
  - exact Hu.
  - rewrite map_app. simpl. apply NoDup_app; [exact Hu|repeat constructor; auto|].
    intros x Hx [<-|[]]. contradiction.
  - now rewrite (map_updateOne_same _id _ db s s' Hf Hk).
Qed.

Lemma evolves_uniqueEmails db db' :
  evolves db db' -> uniqueEmails db -> uniqueEmails db'.
Proof.
  unfold uniqueEmails.
  intros [->|[(rec & -> & _ & He & _)|(s & s' & Hf & -> & _ & Hk & _)]] Hu.
  - exact Hu.
  - rewrite map_app. simpl. apply NoDup_app; [exact Hu|repeat constructor; auto|].
    intros x Hx [<-|[]]. contradiction.
  - now rewrite (map_updateOne_same email _ db s s' Hf Hk).
Qed.

Lemma evolves_hasPassword db db' :
  evolves db db' -> Forall hasPassword db -> Forall hasPassword db'.
Proof.
  intros [->|[(rec & -> & _ & _ & Hp & _)|(s & s' & Hf & -> & _ & _ & Hk & _)]] H.
  - exact H.
  - apply Forall_app. split; [exact H|constructor; [exact Hp|constructor]].
  - apply Forall_updateOne; [exact H|]. apply Hk.
    apply find_some in Hf as [Hin _].
    rewrite Forall_forall in H. now apply H.
Qed.

Lemma evolves_resetPairWf db db' :
  evolves db db' -> Forall resetPairWf db -> Forall resetPairWf db'.
Proof.
  intros [->|[(rec & -> & _ & _ & _ & Hp)|(s & s' & Hf & -> & _ & _ & _ & Hk)]] H.
  - exact H.
  - apply Forall_app. split; [exact H|constructor; [exact Hp|constructor]].
  - apply Forall_updateOne; [exact H|]. apply Hk.
    apply find_some in Hf as [Hin _].
    rewrite Forall_forall in H. now apply H.
Qed.

Section Shapes.

Variable X : Externals.

Lemma preSave_inv salt now d dp :
  preSave X salt now d = inr dp ->
  (isModified P_password d = false /\ dp = d)
  \/ (isModified P_password d = true
      /\ exists plain,
           password (fields d) = Some plain
           /\ dp = let base :=
                     set_passwordConfirm None
                       (set_password (Some (bcrypt_hash X plain salt)) d) in
                   if isNew d then base
                   else set_passwordChangedAt (Some (now - 1000)) base).
Proof.
  unfold preSave. destruct (isModified P_password d); simpl.
  - destruct (password (fields d)) as [plain|]; [|discriminate].
    intros E; inversion E. right. split; [reflexivity|].
    exists plain. split; [reflexivity|]. now destruct (isNew d).
  - intros E; inversion E. now left.
Qed.

(** A save of a loaded document overwrites one record and [keeps] what
    the document kept. *)
Lemma save_existing_keeps v salt now d db d' db' s :
  synced d s -> find (byId (_id s)) db = Some s ->
  save X v salt now d db = inr (d', db') ->
  email (fields d) = email s ->
  (resetPairWf s -> resetPairWf (fields d)) ->
  evolves db db'.
Proof.
  intros Hs Hf Hsave He Hpair.
  destruct (save_existing X v salt now d db d' db' s Hs Hf Hsave)
    as (dp & Hp & Hsp & _ & _ & Hdb & _).
  right; right. exists s, (written dp s).
  split; [exact Hf|]. split; [exact Hdb|].
  pose proof (written_visible dp s P_email Hsp eq_refl) as Hwe.
  pose proof (written_visible dp s P_passwordResetToken Hsp eq_refl) as Hwt.
  pose proof (written_visible dp s P_passwordResetExpires Hsp eq_refl) as Hwx.
  pose proof (written_get dp s P_password) as Hwp.
  simpl in Hwe, Hwt, Hwx, Hwp.
  assert (Hsame : email (fields dp) = email (fields d)
                  /\ passwordResetToken (fields dp)
                     = passwordResetToken (fields d)
                  /\ passwordResetExpires (fields dp)
                     = passwordResetExpires (fields d)
                  /\ (isModified P_password dp = true ->
                      password (fields dp) <> None)).
  { destruct (preSave_inv salt now d dp Hp)
      as [[Hm ->]|[Hm (plain & Hpl & ->)]].
    - repeat split. intros Hm'. rewrite Hm in Hm'. discriminate.
    - destruct (isNew d); repeat split; discriminate. }
  destruct Hsame as (Hse & Hst & Hsx & Hsp').
  split; [apply written_id|]. split; [congruence|]. split.
  - unfold hasPassword. intros Hps.
    destruct (isModified P_password dp) eqn:Hm.
    + inversion Hwp as [Hw]. rewrite Hw. now apply Hsp'.
    + inversion Hwp as [Hw]. now rewrite Hw.
  - intros Hw. specialize (Hpair Hw). unfold resetPairWf in *.
    inversion Hwt as [Ht]. inversion Hwx as [Hx].
    now rewrite Ht, Hx, Hst, Hsx.
Qed.

Lemma resetPassword_evolves p_token b_password b_passwordConfirm now salt
    saveNow tnow db :
  uniqueIds db ->
  evolves db (snd (resetPassword X p_token b_password b_passwordConfirm now
                                 salt saveNow tnow db)).
Proof.
  intros Hu.
  destruct (find (byResetToken (sha256_hex X p_token) now) db) as [s|] eqn:Hf.
  - rewrite (resetPassword_found X _ _ _ _ _ _ _ _ s Hf).
    destruct (save X true salt saveNow (resetDoc b_password b_passwordConfirm s)
                   db) as [e|[u db']] eqn:Es; [now left|].
    cbn [snd].
    apply (save_existing_keeps true salt saveNow
             (resetDoc b_password b_passwordConfirm s) db u db' s);
      auto.
    + unfold resetDoc. auto 10 with synced.
    + apply uniqueIds_find; [exact Hu|]. apply find_some in Hf. tauto.
    + intros _. unfold resetPairWf. simpl. tauto.
  - rewrite resetPassword_unmatched by exact Hf. now left.
Qed.

Lemma updatePassword_evolves reqUser b_current b_password b_passwordConfirm
    salt saveNow tnow db :
  evolves db (snd (updatePassword X reqUser b_current b_password
                                  b_passwordConfirm salt saveNow tnow db)).
Proof.
  unfold updatePassword, findById, findOne. fold (byId (_id reqUser)).
  destruct (find (byId (_id reqUser)) db) as [s|] eqn:Hf;
    cbn [option_map hydrate fields]; [|now left].
  destruct (passwordMatching X b_current (password s)) as [e|[|]];
    cbn [negb]; try now left.
  fold (updateDoc b_password b_passwordConfirm s).
  destruct (save X true salt saveNow (updateDoc b_password b_passwordConfirm s)
                 db) as [e|[u db']] eqn:Es; [now left|].
  cbn [snd].
  apply (save_existing_keeps true salt saveNow
           (updateDoc b_password b_passwordConfirm s) db u db' s); auto.
  - unfold updateDoc. auto with synced.
  - pose proof (find_some _ _ Hf) as [_ Hb]. unfold byId in Hb.
    apply String.eqb_eq in Hb. now rewrite Hb.
Qed.

Lemma forgetPassword_evolves b_email randomBytes now salt mailSent db :
  uniqueIds db ->
  evolves db (snd (forgetPassword X b_email randomBytes now salt mailSent db)).
Proof.
  intros Hu.
  destruct (find (byEmail X b_email) db) as [s|] eqn:Hf.
  - assert (Hi : find (byId (_id s)) db = Some s).
    { apply uniqueIds_find; [exact Hu|]. apply find_some in Hf. tauto. }
    rewrite (forgetPassword_found X _ _ _ _ _ _ s Hf Hi).
    right; right. exists s.
    destruct mailSent; cbn [snd]; eexists; (split; [exact Hi|]);
      (split; [reflexivity|]); repeat split; auto; try discriminate.
  - unfold forgetPassword, findOne. rewrite Hf. now left.
Qed.

Lemma create_inv newId b_name b_email b_password b_passwordConfirm salt now
    db d db' :
  create X newId b_name b_email b_password b_passwordConfirm salt now db
  = inr (d, db') ->
  exists plain,
    b_password = Some plain
    /\ validate X (createDoc X newId b_name b_email b_password
                             b_passwordConfirm) = []
    /\ fields d = signedUp X newId b_name b_email plain salt
    /\ db' = (db ++ [signedUp X newId b_name b_email plain salt])%list
    /\ forall v, In v db ->
         _id v <> newId /\ email v <> option_map (toLowerCase X) b_email.
Proof.
  unfold create. fold (createDoc X newId b_name b_email b_password
                                 b_passwordConfirm).
  unfold save.
  destruct (validate X (createDoc X newId b_name b_email b_password
                                  b_passwordConfirm)) eqn:Ev;
    simpl bind; [|discriminate].
  unfold preSave, createDoc. simpl.
  destruct b_password as [plain|]; [|discriminate].
  simpl. unfold insertOne. simpl.
  destruct (existsb _ db) eqn:Ex; [discriminate|].
  simpl. intros E; inversion E; subst d db'. clear E.
  exists plain. split; [reflexivity|]. split; [reflexivity|].
  split; [reflexivity|]. split; [reflexivity|].
  intros v Hv.
  assert (Hf : (_id v =? newId)%string
               || opt_string_eqb (email v)
                    (option_map (toLowerCase X) b_email) = false).
  { destruct ((_id v =? newId)%string
              || opt_string_eqb (email v)
                   (option_map (toLowerCase X) b_email)) eqn:Eb;
      [|reflexivity].
    assert (Ht : existsb
      (fun v0 => (_id v0 =? newId)%string
                 || opt_string_eqb (email v0)
                      (option_map (toLowerCase X) b_email)) db = true)
      by (apply existsb_exists; eauto).
    simpl in Ex. rewrite Ht in Ex. discriminate. }
  apply orb_false_iff in Hf as [H1 H2]. split.
  - now apply String.eqb_neq.
  - intros He. apply opt_string_eqb_eq in He. rewrite He in H2. discriminate.
Qed.

Lemma signUp_evolves b_name b_email b_password b_passwordConfirm newId salt
    now welcomeSent tnow db :
  evolves db (snd (signUp X b_name b_email b_password b_passwordConfirm newId
                          salt now welcomeSent tnow db)).
Proof.
  unfold signUp.
  destruct (create X newId b_name b_email b_password b_passwordConfirm salt
                   now db) as [e|[d db']] eqn:Ec; [now left|].
  destruct (create_inv _ _ _ _ _ _ _ _ _ _ Ec)
    as (plain & _ & _ & _ & -> & Hfresh).
  assert (Hgoal : evolves db
            (db ++ [signedUp X newId b_name b_email plain salt])%list).
  { right; left.
    exists (signedUp X newId b_name b_email plain salt).
    split; [reflexivity|]. repeat split.
    - intros Hin. apply in_map_iff in Hin as (v & Hv & Hin).
      now apply (proj1 (Hfresh v Hin)).
    - intros Hin. apply in_map_iff in Hin as (v & Hv & Hin).
      now apply (proj2 (Hfresh v Hin)).
    - discriminate. }
  now destruct welcomeSent.
Qed.

Lemma handle_evolves r db :
  uniqueIds db -> evolves db (snd (handle X r db)).
Proof.
  intros Hu. destruct r; simpl.
  - apply signUp_evolves.
  - now apply forgetPassword_evolves.
  - now apply resetPassword_evolves.
  - apply updatePassword_evolves.
Qed.

End Shapes.

(** ** The response of sign-up *)

(** C3: when the creation of the user succeeds, sign-up answers 201 with
    a session token signed for the created user's id and with the created
    user, its password field absent; the created user carries the id, the
    name and the lower-cased email of the request and the role [user], and
    is stored in the collection. The response is that same one whether the
    welcome mail was dispatched or failed. *)
Theorem signUp_response_ignores_mail (X : Externals)
    b_name b_email b_password b_passwordConfirm newId salt now tnow db d db' :
  create X newId b_name b_email b_password b_passwordConfirm salt now db
  = inr (d, db') ->
  (forall welcomeSent,
      signUp X b_name b_email b_password b_passwordConfirm newId salt now
             welcomeSent tnow db
      = (Responded 201
           (mkBody "success" (Some (createToken X tnow (_id (fields d))))
                   (Some (with_password None (fields d))) None),
         db'))
  /\ _id (fields d) = newId
  /\ name (fields d) = b_name
  /\ email (fields d) = option_map (toLowerCase X) b_email
  /\ role (fields d) = user
  /\ password (with_password None (fields d)) = None
  /\ In (fields d) db'.
Proof.
  intros Hc. split.
  - intros welcomeSent. unfold signUp. rewrite Hc.
    destruct welcomeSent; reflexivity.
  - destruct (create_inv X _ _ _ _ _ _ _ _ _ _ Hc)
      as (plain & _ & _ & Hd & -> & _).
    rewrite Hd. repeat split.
    apply in_or_app. right. now left.
Qed.

Lemma signUp_response_ignores_mail_witness :
  signUp Ref.X (Some "Bob") (Some "bob@jobs.hub") (Some "secret")
         (Some "secret") "u2" "ccccc" 5 true 6 Ref.db1
  = (Responded 201
       (mkBody "success" (Some "jwt.u2")
               (Some (mkUser "u2" (Some "Bob") (Some "bob@jobs.hub") None None
                             user None None None))
               None),
     [Ref.u1;
      mkUser "u2" (Some "Bob") (Some "bob@jobs.hub")
             (Some "$2a$12$ccccc.secret") None user None None None])
  /\ signUp Ref.X (Some "Bob") (Some "bob@jobs.hub") (Some "secret")
            (Some "secret") "u2" "ccccc" 5 false 6 Ref.db1
     = (Responded 201
          (mkBody "success" (Some "jwt.u2")
                  (Some (mkUser "u2" (Some "Bob") (Some "bob@jobs.hub") None
                                None user None None None))
                  None),
        [Ref.u1;
         mkUser "u2" (Some "Bob") (Some "bob@jobs.hub")
                (Some "$2a$12$ccccc.secret") None user None None None]).
Proof.
  destruct (signUp_response_ignores_mail Ref.X (Some "Bob")
              (Some "bob@jobs.hub") (Some "secret") (Some "secret") "u2"
              "ccccc" 5 6 Ref.db1
              (mkDoc (signedUp Ref.X "u2" (Some "Bob") (Some "bob@jobs.hub")
                               "secret" "ccccc") false [] true)
              [Ref.u1;
               signedUp Ref.X "u2" (Some "Bob") (Some "bob@jobs.hub")
                        "secret" "ccccc"]
              eq_refl) as (H & _).
  split; [exact (H true)|exact (H false)].
Defined.

(** ** Invariants of the collection *)

(** X7: sign-up, forgot-password, reset-password and update-password keep
    the two indexes of the collection: no two records share an [_id], and
    no two records share an email. *)
Theorem handlers_keep_indexes (X : Externals) db :
  uniqueIds db -> uniqueEmails db ->
  (forall n e p pc newId salt now sent tnow,
      let db' := snd (signUp X n e p pc newId salt now sent tnow db) in
      uniqueIds db' /\ uniqueEmails db')
  /\ (forall e rb now salt sent,
        let db' := snd (forgetPassword X e rb now salt sent db) in
        uniqueIds db' /\ uniqueEmails db')
  /\ (forall tok p pc now salt saveNow tnow,
        let db' := snd (resetPassword X tok p pc now salt saveNow tnow db) in
        uniqueIds db' /\ uniqueEmails db')
  /\ (forall u cur p pc salt saveNow tnow,
        let db' := snd (updatePassword X u cur p pc salt saveNow tnow db) in
        uniqueIds db' /\ uniqueEmails db').
Proof.
  intros Hu He.
  assert (H : forall db', evolves db db' -> uniqueIds db' /\ uniqueEmails db').
  { intros db' Hev. split;
      [now apply (evolves_uniqueIds db)|now apply (evolves_uniqueEmails db)]. }
  repeat split; apply H.
  all: first [ apply signUp_evolves
             | now apply forgetPassword_evolves
             | now apply resetPassword_evolves
             | apply updatePassword_evolves ].
Qed.

Lemma handlers_keep_indexes_witness :
  uniqueIds (snd (signUp Ref.X (Some "Bob") (Some "bob@jobs.hub")
                         (Some "secret") (Some "secret") "u2" "ccccc" 5 true
                         6 Ref.db1))
  /\ uniqueEmails (snd (signUp Ref.X (Some "Bob") (Some "bob@jobs.hub")
                               (Some "secret") (Some "secret") "u2" "ccccc" 5
                               true 6 Ref.db1)).
Proof.
  assert (Hu : uniqueIds Ref.db1) by (repeat constructor; simpl; tauto).
  assert (He : uniqueEmails Ref.db1) by (repeat constructor; simpl; tauto).
  exact (proj1 (handlers_keep_indexes Ref.X Ref.db1 Hu He)
               (Some "Bob") (Some "bob@jobs.hub") (Some "secret")
               (Some "secret") "u2" "ccccc" 5 true 6).
Defined.

(** X8: the same four handlers keep every stored record well formed: it
    has a password, and its reset digest and reset expiry are both set or
    both unset. *)
Theorem handlers_keep_records_well_formed (X : Externals) db :
  uniqueIds db -> Forall hasPassword db -> Forall resetPairWf db ->
  (forall n e p pc newId salt now sent tnow,
      let db' := snd (signUp X n e p pc newId salt now sent tnow db) in
      Forall hasPassword db' /\ Forall resetPairWf db')
  /\ (forall e rb now salt sent,
        let db' := snd (forgetPassword X e rb now salt sent db) in
        Forall hasPassword db' /\ Forall resetPairWf db')
  /\ (forall tok p pc now salt saveNow tnow,
        let db' := snd (resetPassword X tok p pc now salt saveNow tnow db) in
        Forall hasPassword db' /\ Forall resetPairWf db')
  /\ (forall u cur p pc salt saveNow tnow,
        let db' := snd (updatePassword X u cur p pc salt saveNow tnow db) in
        Forall hasPassword db' /\ Forall resetPairWf db').
Proof.
  intros Hu Hp Hw.
  assert (H : forall db', evolves db db' ->
                Forall hasPassword db' /\ Forall resetPairWf db').
  { intros db' Hev. split;
      [now apply (evolves_hasPassword db)|now apply (evolves_resetPairWf db)]. }
  repeat split; apply H.
  all: first [ apply signUp_evolves
             | now apply forgetPassword_evolves
             | now apply resetPassword_evolves
             | apply updatePassword_evolves ].
Qed.

Lemma handlers_keep_records_well_formed_witness :
  Forall hasPassword
         (snd (forgetPassword Ref.X (Some "ann@jobs.hub") "r1" 1000 "s" true
                              Ref.db1))
  /\ Forall resetPairWf
            (snd (forgetPassword Ref.X (Some "ann@jobs.hub") "r1" 1000 "s"
                                 true Ref.db1)).
Proof.
  assert (Hu : uniqueIds Ref.db1) by (repeat constructor; simpl; tauto).
  assert (Hp : Forall hasPassword Ref.db1)
    by (constructor; [discriminate|constructor]).
  assert (Hw : Forall resetPairWf Ref.db1)
    by (constructor; [split; reflexivity|constructor]).
  exact (proj1 (proj2 (handlers_keep_records_well_formed Ref.X Ref.db1 Hu Hp
                         Hw))
               (Some "ann@jobs.hub") "r1" 1000 "s" true).
Defined.

(** X9: whatever requests are served, in whatever order and with whatever
    inputs, starting from the empty collection, the collection has unique
    identifiers and unique emails, and every record has a password and a
    well-formed reset pair. *)
Theorem served_collections_well_formed (X : Externals) rs :
  let db := serve X rs [] in
  uniqueIds db /\ uniqueEmails db
  /\ Forall hasPassword db /\ Forall resetPairWf db.
Proof.
  unfold serve.
  assert (H : forall db,
             uniqueIds db /\ uniqueEmails db
             /\ Forall hasPassword db /\ Forall resetPairWf db ->
             let db' := fold_left (fun acc r => snd (handle X r acc)) rs db in
             uniqueIds db' /\ uniqueEmails db'
             /\ Forall hasPassword db' /\ Forall resetPairWf db').
  { induction rs as [|r rs IH]; intros db Hdb; [exact Hdb|].
    simpl. apply IH. destruct Hdb as (Hu & He & Hp & Hw).
    pose proof (handle_evolves X r db Hu) as Hev.
    repeat split.
    - now apply (evolves_uniqueIds db).
    - now apply (evolves_uniqueEmails db).
    - now apply (evolves_hasPassword db).
    - now apply (evolves_resetPairWf db). }
  apply H. repeat split; constructor.
Qed.

(** ** Closed forms of sign-up, login and update-password *)

Lemma find_updateOne_fresh (P : User -> bool) i db s s' :
  (forall v, In v db -> P v = false) -> find (byId i) db = Some s ->
  find P (updateOne i (fun _ => s') db) = if P s' then Some s' else None.
Proof.
  intros Hall Hf. induction db as [|u db IH]; simpl in *; [discriminate|].
  unfold byId in Hf at 1. destruct (_id u =? i)%string; simpl.
  - destruct (P s'); [reflexivity|].
    apply find_all_false. intros v Hv. apply Hall. now right.
  - rewrite (Hall u (or_introl eq_refl)). apply IH; auto.
Qed.

Lemma find_updateOne_other i j upd db :
  (forall s, _id s = i -> _id (upd s) = i) -> i <> j ->
  find (byId j) (updateOne i upd db) = find (byId j) db.
Proof.
  intros Hid Hne. induction db as [|u db IH]; simpl; [reflexivity|].
  destruct (_id u =? i)%string eqn:E; simpl.
  - apply String.eqb_eq in E. unfold byId.
    rewrite (Hid u E), E.
    now replace (i =? j)%string with false
      by (symmetry; now apply String.eqb_neq).
  - now rewrite IH.
Qed.

Section ClosedForms.

Variable X : Externals.

(** A save whose validators turn a path down rejects with a validation
    error that names the path. *)
Lemma save_invalid_path p salt now d db :
  validPath X d p = false ->
  exists errs,
    save X true salt now d db = inl (ValidationError errs) /\ In p errs.
Proof.
  intros Hp. exists (validate X d).
  assert (Hin : In p (validate X d)).
  { unfold validate. apply filter_In. split; [|now rewrite Hp].
    unfold schemaPaths. destruct p; simpl; tauto. }
  split; [|exact Hin].
  unfold save. destruct (validate X d); [contradiction|reflexivity].
Qed.

(** The validators of a new document, spelled out. *)
Lemma createDoc_valid newId n e p :
  required n = true ->
  required (option_map (toLowerCase X) e) = true ->
  (forall e', e = Some e' -> isEmail X (toLowerCase X e') = true) ->
  (6 <= jsLength p)%nat ->
  validate X (createDoc X newId n e (Some p) (Some p)) = [].
Proof.
  intros Hn He Hi Hl. apply validate_nil. repeat split.
  - exact Hn.
  - unfold validPath, createDoc. cbn [fields email]. rewrite He.
    destruct e as [e'|]; [apply (Hi e' eq_refl)|reflexivity].
  - unfold validPath, createDoc. cbn [passwordSelected orb fields password].
    now apply long_enough_valid.
  - unfold validPath, createDoc. cbn [fields passwordConfirm password].
    rewrite opt_string_eqb_refl, andb_true_r.
    pose proof (long_enough_valid p Hl) as H.
    apply andb_true_iff in H. tauto.
Qed.

Lemma create_ok newId n e p pc salt now db :
  validate X (createDoc X newId n e (Some p) pc) = [] ->
  (forall v, In v db ->
     _id v <> newId /\ email v <> option_map (toLowerCase X) e) ->
  create X newId n e (Some p) pc salt now db
  = inr (mkDoc (signedUp X newId n e p salt) false [] true,
         (db ++ [signedUp X newId n e p salt])%list).
Proof.
  intros Hv Hfresh. unfold create.
  fold (createDoc X newId n e (Some p) pc). unfold save. rewrite Hv.
  unfold preSave, createDoc. simpl. unfold insertOne. simpl.
  assert (Hex : existsb
            (fun v => (_id v =? newId)%string
                      || opt_string_eqb (email v)
                           (option_map (toLowerCase X) e)) db = false).
  { apply not_true_iff_false. intros Ht.
    apply existsb_exists in Ht as (v & Hin & Hb).
    destruct (Hfresh v Hin) as [H1 H2].
    apply orb_true_iff in Hb as [Hb|Hb].
    - apply String.eqb_eq in Hb. contradiction.
    - apply opt_string_eqb_eq in Hb. contradiction. }
  rewrite Hex. reflexivity.
Qed.

(** Login that finds the user and verifies the password, in closed form. *)
Lemma login_ok e p tnow db s hashed :
  e <> "" -> p <> "" ->
  find (byEmail X (Some e)) db = Some s ->
  password s = Some hashed -> bcrypt_compare X p hashed = true ->
  login X (Some e) (Some p) tnow db
  = Responded 200
      (mkBody "success" (Some (createToken X tnow (_id s)))
              (Some (with_password None s)) None).
Proof.
  intros He Hp Hf Hpw Hc. unfold login, findOne.
  apply String.eqb_neq in He, Hp. cbn [falsy]. rewrite He, Hp, Hf.
  cbn [orb option_map hydrate fields]. rewrite Hpw.
  cbn [passwordMatching]. rewrite Hc. reflexivity.
Qed.

Lemma updatePassword_valid reqUser cur p salt saveNow tnow db s :
  find (byId (_id reqUser)) db = Some s ->
  passwordMatching X cur (password s) = inr true ->
  validIdentity X s -> (6 <= jsLength p)%nat ->
  Some p <> password s ->
  updatePassword X reqUser cur (Some p) (Some p) salt saveNow tnow db
  = (sendTokenResponse X tnow
       (with_password None
          (rehashed (bcrypt_hash X p salt) (saveNow - 1000) s))
       200,
     updateOne (_id s)
       (fun _ => rehashed (bcrypt_hash X p salt) (saveNow - 1000) s) db).
Proof.
  intros Hf Hm (Hname & Hemail & HisEmail) Hlen Hnew.
  rewrite (updatePassword_found X _ _ _ _ _ _ _ _ s Hf Hm).
  assert (Hi : find (byId (_id s)) db = Some s).
  { pose proof (find_some _ _ Hf) as [_ Hb]. unfold byId in Hb.
    apply String.eqb_eq in Hb. now rewrite Hb. }
  set (d := updateDoc (Some p) (Some p) s).
  assert (Hs : synced d s) by (unfold d, updateDoc; auto with synced).
  assert (Hmod : isModified P_password d = true)
    by now apply updateDoc_modified.
  assert (Hval : validate X d = []).
  { apply validate_nil. repeat split.
    - exact Hname.
    - unfold validPath. change (email (fields d)) with (email s).
      rewrite Hemail. destruct (email s); [exact HisEmail|reflexivity].
    - unfold validPath. rewrite Hmod, orb_true_r.
      change (password (fields d)) with (Some p).
      now apply long_enough_valid.
    - unfold validPath. change (passwordConfirm (fields d)) with (Some p).
      change (password (fields d)) with (Some p).
      rewrite opt_string_eqb_refl, andb_true_r.
      pose proof (long_enough_valid p Hlen) as Hreq.
      apply andb_true_iff in Hreq. tauto. }
  pose proof (preSave_modified X salt saveNow d p Hmod (proj1 Hs) eq_refl)
    as Hp.
  set (dp := set_passwordChangedAt _ _) in Hp.
  rewrite (save_existing_ok X true salt saveNow d dp db s Hs Hi
             (fun _ => Hval) Hp).
  assert (Hsp : synced dp s) by (apply (synced_preSave X _ _ _ _ _ Hs Hp)).
  assert (Hw : written dp s = fields dp).
  { apply written_shown; [exact Hsp|]. reflexivity. }
  rewrite Hw. reflexivity.
Qed.

End ClosedForms.

(** ** Sign-up *)

(** X10: a sign-up with a name, a valid email, a password of at least 6
    characters that is confirmed, and fresh index keys appends exactly one
    record: the email lower-cased, the bcrypt hash in place of the
    password, no password confirmation, the role [user], no
    password-changed timestamp and no reset pair; the response is 201 with
    that record minus its password. *)
Theorem signUp_persists_hashed_record (X : Externals) n e p newId salt now
    sent tnow db :
  required n = true ->
  required (option_map (toLowerCase X) e) = true ->
  (forall e', e = Some e' -> isEmail X (toLowerCase X e') = true) ->
  (6 <= jsLength p)%nat ->
  (forall v, In v db ->
     _id v <> newId /\ email v <> option_map (toLowerCase X) e) ->
  signUp X n e (Some p) (Some p) newId salt now sent tnow db
  = (Responded 201
       (mkBody "success" (Some (createToken X tnow newId))
               (Some (mkUser newId n (option_map (toLowerCase X) e) None None
                             user None None None))
               None),
     (db ++ [mkUser newId n (option_map (toLowerCase X) e)
                    (Some (bcrypt_hash X p salt)) None user None None None])
       %list).
Proof.
  intros Hn He Hi Hl Hfresh. unfold signUp.
  rewrite (create_ok X newId n e p (Some p) salt now db
             (createDoc_valid X newId n e p Hn He Hi Hl) Hfresh).
  now destruct sent.
Qed.

Lemma signUp_persists_hashed_record_witness :
  signUp Ref.X (Some "Bob") (Some "bob@jobs.hub") (Some "secret")
         (Some "secret") "u2" "ccccc" 5 false 6 Ref.db1
  = (Responded 201
       (mkBody "success" (Some "jwt.u2")
               (Some (mkUser "u2" (Some "Bob") (Some "bob@jobs.hub") None None
                             user None None None))
               None),
     [Ref.u1;
      mkUser "u2" (Some "Bob") (Some "bob@jobs.hub")
             (Some "$2a$12$ccccc.secret") None user None None None]).
Proof.
  apply (signUp_persists_hashed_record Ref.X (Some "Bob")
           (Some "bob@jobs.hub") "secret" "u2" "ccccc" 5 false 6 Ref.db1).
  - reflexivity.
  - reflexivity.
  - intros e' E. inversion E. reflexivity.
  - simpl. lia.
  - intros v [<-|[]]. split; discriminate.
Defined.

(** X11: a password confirmation that differs from the password (or is
    absent) is turned down by the schema in all three operations that set a
    password: the result is a validation error naming [passwordConfirm] and
    the collection is unchanged. Reset-password and update-password get
    there once the token matches, respectively once the current password
    is verified. *)
Theorem mismatched_confirmation_rejected (X : Externals) b_password
    b_passwordConfirm :
  b_passwordConfirm <> b_password ->
  (forall n e newId salt now sent tnow db,
      exists errs,
        signUp X n e b_password b_passwordConfirm newId salt now sent tnow db
        = (NextError (ValidationError errs), db)
        /\ In P_passwordConfirm errs)
  /\ (forall p_token now salt saveNow tnow db s,
        find (byResetToken (sha256_hex X p_token) now) db = Some s ->
        exists errs,
          resetPassword X p_token b_password b_passwordConfirm now salt
                        saveNow tnow db
          = (NextError (ValidationError errs), db)
          /\ In P_passwordConfirm errs)
  /\ (forall reqUser cur salt saveNow tnow db s,
        find (byId (_id reqUser)) db = Some s ->
        passwordMatching X cur (password s) = inr true ->
        exists errs,
          updatePassword X reqUser cur b_password b_passwordConfirm salt
                         saveNow tnow db
          = (NextError (ValidationError errs), db)
          /\ In P_passwordConfirm errs).
Proof.
  intros Hne.
  assert (Hinv : required b_passwordConfirm
                 && opt_string_eqb b_passwordConfirm b_password = false).
  { apply andb_false_iff. right. apply not_true_iff_false.
    intros H. apply opt_string_eqb_eq in H. contradiction. }
  split; [|split].
  - intros n e newId salt now sent tnow db. unfold signUp, create.
    edestruct (save_invalid_path X P_passwordConfirm salt now)
      as (errs & Hs & Hin);
      [|exists errs; rewrite Hs; split; [reflexivity|exact Hin]].
    exact Hinv.
  - intros p_token now salt saveNow tnow db s Hf.
    rewrite (resetPassword_found X _ _ _ _ _ _ _ _ s Hf).
    destruct (save_invalid_path X P_passwordConfirm salt saveNow
                (resetDoc b_password b_passwordConfirm s) db)
      as (errs & Hs & Hin);
      [exact Hinv|exists errs; rewrite Hs; split; [reflexivity|exact Hin]].
  - intros reqUser cur salt saveNow tnow db s Hf Hm.
    rewrite (updatePassword_found X _ _ _ _ _ _ _ _ s Hf Hm).
    destruct (save_invalid_path X P_passwordConfirm salt saveNow
                (updateDoc b_password b_passwordConfirm s) db)
      as (errs & Hs & Hin);
      [exact Hinv|exists errs; rewrite Hs; split; [reflexivity|exact Hin]].
Qed.

Lemma mismatched_confirmation_rejected_witness :
  exists errs,
    signUp Ref.X (Some "Bob") (Some "bob@jobs.hub") (Some "abc123")
           (Some "xyz") "u2" "ccccc" 5 true 6 Ref.db1
    = (NextError (ValidationError errs), Ref.db1)
    /\ In P_passwordConfirm errs.
Proof.
  apply (proj1 (mismatched_confirmation_rejected Ref.X (Some "abc123")
                  (Some "xyz") ltac:(discriminate))).
Defined.

(** X12: sign-up with an email that, lower-cased, is already that of a
    stored record never inserts: when the validators pass, the insertion
    fails on the unique index ([DuplicateKey]) and the collection is
    unchanged. *)
Theorem signUp_duplicate_email_rejected (X : Externals) n e p pc newId salt
    now sent tnow db v :
  validate X (createDoc X newId n e (Some p) pc) = [] ->
  In v db -> email v = option_map (toLowerCase X) e ->
  signUp X n e (Some p) pc newId salt now sent tnow db
  = (NextError DuplicateKey, db).
Proof.
  intros Hv Hin He. unfold signUp, create.
  fold (createDoc X newId n e (Some p) pc). unfold save. rewrite Hv.
  unfold preSave, createDoc. simpl. unfold insertOne. simpl.
  assert (Hex : existsb
            (fun v0 => (_id v0 =? newId)%string
                       || opt_string_eqb (email v0)
                            (option_map (toLowerCase X) e)) db = true).
  { apply existsb_exists. exists v. split; [exact Hin|].
    apply orb_true_iff. right. now apply opt_string_eqb_eq. }
  rewrite Hex. reflexivity.
Qed.

Lemma signUp_duplicate_email_rejected_witness :
  signUp Ref.X (Some "Ann B") (Some "ann@jobs.hub") (Some "secret")
         (Some "secret") "u2" "ccccc" 5 true 6 Ref.db1
  = (NextError DuplicateKey, Ref.db1).
Proof.
  apply (signUp_duplicate_email_rejected Ref.X (Some "Ann B")
           (Some "ann@jobs.hub") "secret" (Some "secret") "u2" "ccccc" 5 true
           6 Ref.db1 Ref.u1).
  - reflexivity.
  - now left.
  - reflexivity.
Defined.

(** X13: sign-up followed by login: once a sign-up succeeded, a login with
    an email that lower-cases to the same address and with the same
    password is answered 200 with a token and the new user without its
    password, provided bcrypt verifies the password against the hash it
    made of it. *)
Theorem login_after_signUp (X : Externals) n e p pc newId salt now sent tnow
    db code body db' e' tnow' :
  signUp X n (Some e) (Some p) pc newId salt now sent tnow db
  = (Responded code body, db') ->
  bcrypt_compare X p (bcrypt_hash X p salt) = true ->
  e' <> "" -> toLowerCase X e' = toLowerCase X e ->
  login X (Some e') (Some p) tnow' db'
  = Responded 200
      (mkBody "success" (Some (createToken X tnow' newId))
              (Some (with_password None
                       (signedUp X newId n (Some e) p salt)))
              None).
Proof.
  intros Hs Hc He' Hl. unfold signUp in Hs.
  destruct (create X newId n (Some e) (Some p) pc salt now db)
    as [err|[d db1]] eqn:Ec; [discriminate|].
  assert (db1 = db') by (destruct sent; now inversion Hs). subst db1.
  destruct (create_inv X _ _ _ _ _ _ _ _ _ _ Ec)
    as (plain & Hp & Hval & _ & -> & Hfresh).
  inversion Hp; subst plain.
  apply validate_nil in Hval as (_ & _ & Hvp & _).
  assert (Hpne : p <> "").
  { intros ->. discriminate Hvp. }
  apply (login_ok X e' p tnow'
           (db ++ [signedUp X newId n (Some e) p salt])
           (signedUp X newId n (Some e) p salt)
           (bcrypt_hash X p salt)); auto.
  apply find_app_last.
  - intros v Hv. apply not_true_iff_false. intros Hb.
    unfold byEmail in Hb. apply opt_string_eqb_eq in Hb.
    apply (proj2 (Hfresh v Hv)). rewrite Hb. simpl. now rewrite Hl.
  - unfold byEmail. simpl. rewrite Hl. apply String.eqb_refl.
Qed.

Lemma login_after_signUp_witness :
  login Ref.X (Some "bob@jobs.hub") (Some "secret") 9
        (snd (signUp Ref.X (Some "Bob") (Some "bob@jobs.hub") (Some "secret")
                     (Some "secret") "u2" "ccccc" 5 true 6 Ref.db1))
  = Responded 200
      (mkBody "success" (Some (createToken Ref.X 9 "u2"))
              (Some (with_password None
                       (signedUp Ref.X "u2" (Some "Bob")
                                 (Some "bob@jobs.hub") "secret" "ccccc")))
              None).
Proof.
  eapply (login_after_signUp Ref.X (Some "Bob") "bob@jobs.hub" "secret"
            (Some "secret") "u2" "ccccc" 5 true 6 Ref.db1).
  - reflexivity.
  - reflexivity.
  - discriminate.
  - reflexivity.
Defined.

(** ** Forgot-password and reset-password *)

(** X14: forgot-password answers [NotFound] (404) exactly when no stored
    record has the given email, and then writes nothing; for a known email
    the answer is 200 or the 503 of a failed dispatch. *)
Theorem forgetPassword_notFound_iff_unknown (X : Externals) e randomBytes now
    salt mailSent db :
  uniqueIds db ->
  (find (byEmail X e) db = None ->
   forgetPassword X e randomBytes now salt mailSent db
   = (NextError NotFound, db))
  /\ (fst (forgetPassword X e randomBytes now salt mailSent db)
      = NextError NotFound
      <-> find (byEmail X e) db = None).
Proof.
  intros Hu.
  assert (Hnone : find (byEmail X e) db = None ->
                  forgetPassword X e randomBytes now salt mailSent db
                  = (NextError NotFound, db)).
  { intros Hf. unfold forgetPassword, findOne. now rewrite Hf. }
  split; [exact Hnone|]. split.
  - destruct (find (byEmail X e) db) as [s|] eqn:Hf; [|reflexivity].
    assert (Hi : find (byId (_id s)) db = Some s).
    { apply uniqueIds_find; [exact Hu|]. apply find_some in Hf. tauto. }
    rewrite (forgetPassword_found X _ _ _ _ _ _ s Hf Hi).
    destruct mailSent; discriminate.
  - intros Hf. now rewrite (Hnone Hf).
Qed.

Lemma forgetPassword_notFound_iff_unknown_witness :
  forgetPassword Ref.X (Some "bob@jobs.hub") "r1" 1000 "s" true Ref.db1
  = (NextError NotFound, Ref.db1).
Proof.
  apply (proj1 (forgetPassword_notFound_iff_unknown Ref.X
                  (Some "bob@jobs.hub") "r1" 1000 "s" true Ref.db1
                  ltac:(repeat constructor; simpl; tauto))).
  reflexivity.
Defined.

(** X15: a forgot-password whose mail goes out answers 200 without the raw
    token and without the user, and stores on the user's record the SHA-256
    digest of the raw token and an expiry ten minutes after the clock
    reading; the password and every other field of the record, and every
    other record, are as before. *)
Theorem forgetPassword_stores_digest (X : Externals) e randomBytes now salt
    db s :
  uniqueIds db -> find (byEmail X e) db = Some s ->
  exists db',
    forgetPassword X e randomBytes now salt true db
    = (Responded 200
         (mkBody "success" None None (Some "Token sent to email.")), db')
    /\ find (byId (_id s)) db'
       = Some (mkUser (_id s) (name s) (email s) (password s)
                      (passwordConfirm s) (role s) (passwordChangedAt s)
                      (Some (sha256_hex X randomBytes))
                      (Some (now + 600000)))
    /\ (forall j, j <> _id s -> find (byId j) db' = find (byId j) db)
    /\ length db' = length db.
Proof.
  intros Hu He.
  assert (Hi : find (byId (_id s)) db = Some s).
  { apply uniqueIds_find; [exact Hu|]. apply find_some in He. tauto. }
  eexists. split; [apply (forgetPassword_found X e randomBytes now salt true
                            db s He Hi)|].
  split; [rewrite find_updateOne_byId by reflexivity; now rewrite Hi|].
  split.
  - intros j Hj. apply find_updateOne_other; [reflexivity|congruence].
  - rewrite <- (length_map _id), <- (length_map _id db).
    f_equal. now apply (map_updateOne_same _id _ db s).
Qed.

Lemma forgetPassword_stores_digest_witness :
  exists db',
    forgetPassword Ref.X (Some "ann@jobs.hub") "r1" 1000 "s" true Ref.db1
    = (Responded 200
         (mkBody "success" None None (Some "Token sent to email.")), db')
    /\ find (byId "u1") db'
       = Some (mkUser "u1" (Some "Ann") (Some "ann@jobs.hub")
                      (Some "$2a$12$aaaaa.oldpass") None user None
                      (Some "sha256:r1") (Some 601000))
    /\ (forall j, j <> "u1" -> find (byId j) db' = find (byId j) Ref.db1)
    /\ length db' = length Ref.db1.
Proof.
  apply (forgetPassword_stores_digest Ref.X (Some "ann@jobs.hub") "r1" 1000
           "s" Ref.db1 Ref.u1).
  - repeat constructor. simpl. tauto.
  - reflexivity.
Defined.

(** X16: forgot-password followed by reset-password: with a digest that no
    record held before, the raw token that was mailed resets the password
    of that user when presented before the expiry, with a confirmed
    password of at least 6 characters: the stored record then carries the
    hash of the new password, the backdated timestamp and no reset pair.
    Presented at or after the expiry, the same token is refused. *)
Theorem reset_after_forgetPassword (X : Externals) e raw t0 salt0 db s p now
    salt saveNow tnow :
  uniqueIds db -> find (byEmail X e) db = Some s ->
  (forall v, In v db -> passwordResetToken v <> Some (sha256_hex X raw)) ->
  validIdentity X s -> (6 <= jsLength p)%nat ->
  let db1 := snd (forgetPassword X e raw t0 salt0 true db) in
  (now < t0 + 600000 ->
   exists db2,
     resetPassword X raw (Some p) (Some p) now salt saveNow tnow db1
     = (Responded 200
          (mkBody "success" (Some (createToken X tnow (_id s)))
                  (Some (mkUser (_id s) (name s) (email s) None None (role s)
                                (Some (saveNow - 1000)) None None))
                  None),
        db2)
     /\ find (byId (_id s)) db2
        = Some (mkUser (_id s) (name s) (email s)
                       (Some (bcrypt_hash X p salt)) None (role s)
                       (Some (saveNow - 1000)) None None))
  /\ (t0 + 600000 <= now ->
      resetPassword X raw (Some p) (Some p) now salt saveNow tnow db1
      = (NextError InvalidOrExpiredToken, db1)).
Proof.
  intros Hu He Hfresh Hvalid Hlen.
  assert (Hi : find (byId (_id s)) db = Some s).
  { apply uniqueIds_find; [exact Hu|]. apply find_some in He. tauto. }
  rewrite (forgetPassword_found X e raw t0 salt0 true db s He Hi). cbn [snd].
  set (s1 := issued (sha256_hex X raw) (t0 + 10 * 60 * 1000) s).
  set (db1 := updateOne (_id s) (fun _ => s1) db).
  assert (Hfind : forall now',
             find (byResetToken (sha256_hex X raw) now') db1
             = if byResetToken (sha256_hex X raw) now' s1
               then Some s1 else None).
  { intros now'. apply find_updateOne_fresh with (s := s); [|exact Hi].
    intros v Hv. apply not_true_iff_false. intros Hb.
    apply byResetToken_true in Hb as [Hb _]. now apply (Hfresh v Hv). }
  split.
  - intros Hlt.
    assert (Hb : byResetToken (sha256_hex X raw) now s1 = true).
    { apply byResetToken_issued. split; [reflexivity|lia]. }
    assert (Hi1 : find (byId (_id s1)) db1 = Some s1).
    { unfold db1. change (_id s1) with (_id s).
      rewrite find_updateOne_byId by reflexivity. now rewrite Hi. }
    eexists. split.
    + rewrite (resetPassword_valid X raw p now salt saveNow tnow db1 s1);
        [reflexivity| |exact Hi1|exact Hvalid|exact Hlen].
      now rewrite Hfind, Hb.
    + unfold db1. change (_id s1) with (_id s).
      rewrite updateOne_updateOne by reflexivity.
      rewrite find_updateOne_byId by reflexivity. now rewrite Hi.
  - intros Hge. apply resetPassword_unmatched. rewrite Hfind.
    replace (byResetToken (sha256_hex X raw) now s1) with false;
      [reflexivity|].
    symmetry. apply not_true_iff_false. intros Hb.
    apply byResetToken_issued in Hb as [_ Hb]. lia.
Qed.

Lemma reset_after_forgetPassword_witness :
  (exists db2,
      resetPassword Ref.X "r1" (Some "newpass1") (Some "newpass1") 2000
                    "bbbbb" 2001 2002
                    (snd (forgetPassword Ref.X (Some "ann@jobs.hub") "r1"
                                         1000 "s" true Ref.db1))
      = (Responded 200
           (mkBody "success" (Some "jwt.u1")
                   (Some (mkUser "u1" (Some "Ann") (Some "ann@jobs.hub") None
                                 None user (Some 1001) None None))
                   None),
         db2)
      /\ find (byId "u1") db2
         = Some (mkUser "u1" (Some "Ann") (Some "ann@jobs.hub")
                        (Some "$2a$12$bbbbb.newpass1") None user (Some 1001)
                        None None))
  /\ resetPassword Ref.X "r1" (Some "newpass1") (Some "newpass1") 601000
                   "bbbbb" 601001 601002
                   (snd (forgetPassword Ref.X (Some "ann@jobs.hub") "r1" 1000
                                        "s" true Ref.db1))
     = (NextError InvalidOrExpiredToken,
        snd (forgetPassword Ref.X (Some "ann@jobs.hub") "r1" 1000 "s" true
                            Ref.db1)).
Proof.
  assert (Hu : uniqueIds Ref.db1) by (repeat constructor; simpl; tauto).
  assert (Hf : forall v, In v Ref.db1 ->
                 passwordResetToken v <> Some (sha256_hex Ref.X "r1"))
    by (intros v [<-|[]]; discriminate).
  assert (Hv : validIdentity Ref.X Ref.u1) by (repeat split; reflexivity).
  assert (Hl : (6 <= jsLength "newpass1")%nat) by (vm_compute; lia).
  split.
  - apply (proj1 (reset_after_forgetPassword Ref.X (Some "ann@jobs.hub") "r1"
                    1000 "s" Ref.db1 Ref.u1 "newpass1" 2000 "bbbbb" 2001 2002
                    Hu eq_refl Hf Hv Hl)).
    lia.
  - apply (proj2 (reset_after_forgetPassword Ref.X (Some "ann@jobs.hub") "r1"
                    1000 "s" Ref.db1 Ref.u1 "newpass1" 601000 "bbbbb" 601001
                    601002 Hu eq_refl Hf Hv Hl)).
    lia.
Defined.

(** ** Password changes and the sessions around them *)

Section AfterChange.

Variable X : Externals.

(** The record a save leaves, field by field, for the fields the hook
    does not touch. *)
Lemma save_existing_fields v salt now d db d' db' s :
  synced d s -> find (byId (_id s)) db = Some s ->
  save X v salt now d db = inr (d', db') ->
  exists s',
    find (byId (_id s)) db' = Some s'
    /\ email s' = email (fields d)
    /\ passwordResetToken s' = passwordResetToken (fields d)
    /\ passwordResetExpires s' = passwordResetExpires (fields d).
Proof.
  intros Hs Hf Hsave.
  destruct (save_existing X v salt now d db d' db' s Hs Hf Hsave)
    as (dp & Hp & Hsp & _ & _ & _ & Hfind).
  exists (written dp s). split; [exact Hfind|].
  pose proof (written_visible dp s P_email Hsp eq_refl) as Hwe.
  pose proof (written_visible dp s P_passwordResetToken Hsp eq_refl) as Hwt.
  pose proof (written_visible dp s P_passwordResetExpires Hsp eq_refl) as Hwx.
  simpl in Hwe, Hwt, Hwx.
  inversion Hwe as [He]. inversion Hwt as [Ht]. inversion Hwx as [Hx].
  rewrite He, Ht, Hx.
  destruct (preSave_inv X salt now d dp Hp)
    as [[_ ->]|[_ (plain & _ & ->)]]; [now repeat split|].
  destruct (isNew d); now repeat split.
Qed.

(** What [passwordChangedBy] leaves in the store. *)
Lemma passwordChangedBy_stored uid t1 db db' :
  uniqueIds db -> passwordChangedBy X uid t1 db db' ->
  exists stored,
    find (byId uid) db' = Some stored
    /\ passwordChangedAt stored = Some (t1 - 1000).
Proof.
  intros Hu
    [(p_token & bp & bpc & now & salt & tnow & code & body & s & Hf & Hs & Hr)
    |(reqUser & cur & bp & bpc & salt & tnow & code & body & s
      & Hr0 & Hf & Hnew & Hr)].
  - assert (Hin : In s db) by (apply find_some in Hf; tauto).
    pose proof (uniqueIds_find db s Hu Hin) as Hi.
    rewrite (resetPassword_found X _ _ _ _ _ _ _ _ s Hf) in Hr.
    destruct (save X true salt t1 (resetDoc bp bpc s) db)
      as [e|[u db1]] eqn:Es; [discriminate|].
    inversion Hr; subst db1. rewrite <- Hs.
    apply (save_password_change X true salt t1 (resetDoc bp bpc s) db u
             db' s); auto.
    + unfold resetDoc. auto 10 with synced.
    + apply resetDoc_modified.
  - assert (Hid : _id s = uid).
    { pose proof (find_some _ _ Hf) as [_ Hb]. unfold byId in Hb.
      now apply String.eqb_eq in Hb. }
    assert (Hm : exists u,
               save X true salt t1 (updateDoc bp bpc s) db = inr (u, db')).
    { unfold updatePassword, findById, findOne in Hr.
      fold (byId (_id reqUser)) in Hr. rewrite Hr0, Hf in Hr.
      cbn [option_map hydrate fields] in Hr.
      destruct (passwordMatching X cur (password s)) as [e|[|]];
        cbn [negb] in Hr; try discriminate.
      fold (updateDoc bp bpc s) in Hr.
      destruct (save X true salt t1 (updateDoc bp bpc s) db)
        as [e|[u db1]]; [discriminate|].
      inversion Hr. now exists u. }
    destruct Hm as (u & Hsave). rewrite <- Hid in Hf |- *.
    apply (save_password_change X true salt t1 (updateDoc bp bpc s) db u
             db' s); auto.
    + unfold updateDoc. auto with synced.
    + now apply updateDoc_modified.
Qed.

Lemma login_after_write e p tnow db s s' hashed :
  e <> "" -> p <> "" ->
  find (byEmail X (Some e)) db = Some s ->
  find (byId (_id s)) db = Some s ->
  email s' = email s -> password s' = Some hashed ->
  login X (Some e) (Some p) tnow (updateOne (_id s) (fun _ => s') db)
  = if bcrypt_compare X p hashed
    then Responded 200
           (mkBody "success" (Some (createToken X tnow (_id s')))
                   (Some (with_password None s')) None)
    else NextError InvalidCredentials.
Proof.
  intros He Hp Hf Hi Hem Hpw.
  assert (Hf' : find (byEmail X (Some e))
                     (updateOne (_id s) (fun _ => s') db) = Some s').
  { apply find_updateOne_keep; auto.
    apply find_some in Hf as [_ Hb]. unfold byEmail in *. now rewrite Hem. }
  destruct (bcrypt_compare X p hashed) eqn:Hc.
  - now apply login_ok with (hashed := hashed).
  - unfold login, findOne. apply String.eqb_neq in He, Hp.
    cbn [falsy]. rewrite He, Hp, Hf'.
    cbn [orb option_map hydrate fields]. rewrite Hpw.
    cbn [passwordMatching]. now rewrite Hc.
Qed.

End AfterChange.

(** X17: a token issued at or after the clock reading of the save that
    changed the password is not stale: with [iat] the whole seconds of an
    issue time [issuedMs >= t1], [protect] forwards the user. The stored
    timestamp is one second behind the save, so the token that the same
    response carries passes. *)
Theorem token_issued_after_change_accepted (X : Externals) uid t1 db db' auth
    clock t dec issuedMs :
  uniqueIds db -> passwordChangedBy X uid t1 db db' ->
  bearerToken auth = Some t -> t <> "" ->
  jwt_verify X t clock = Some dec -> id dec = uid ->
  iat dec = issuedMs / 1000 -> t1 <= issuedMs ->
  exists stored,
    find (byId uid) db' = Some stored
    /\ protect X auth clock db' = Forward (with_password None stored).
Proof.
  intros Hu Hch Ht Hne Hv Hid Hiat Hle.
  destruct (passwordChangedBy_stored X uid t1 db db' Hu Hch)
    as (stored & Hf & Hc).
  exists stored. split; [exact Hf|].
  rewrite (protect_verified X auth clock db' t dec Ht Hne Hv), Hid, Hf.
  assert (H : changedPasswordAfter stored (iat dec) = false).
  { apply changedPasswordAfter_false. right. exists (t1 - 1000).
    split; [exact Hc|]. rewrite Hiat.
    pose proof (Z.div_mod issuedMs 1000 ltac:(lia)).
    pose proof (Z.mod_pos_bound issuedMs 1000 ltac:(lia)). lia. }
  now rewrite H.
Qed.

Lemma token_issued_after_change_accepted_witness :
  exists stored,
    find (byId "u1")
         (snd (updatePassword Ref.X Ref.u1 (Some "oldpass") (Some "newpass1")
                              (Some "newpass1") "bbbbb" 9500 9600 Ref.db1))
    = Some stored
    /\ protect Ref.X (Some "Bearer t9") 10002
               (snd (updatePassword Ref.X Ref.u1 (Some "oldpass")
                                    (Some "newpass1") (Some "newpass1")
                                    "bbbbb" 9500 9600 Ref.db1))
       = Forward (with_password None stored).
Proof.
  apply (token_issued_after_change_accepted Ref.X "u1" 9500 Ref.db1 _
           (Some "Bearer t9") 10002 "t9" (mkDecoded "u1" 9) 9600).
  - repeat constructor. simpl. tauto.
  - right.
    exists Ref.u1, (Some "oldpass"), (Some "newpass1"), (Some "newpass1"),
           "bbbbb", 9600.
    eexists _, _, Ref.u1.
    split; [reflexivity|]. split; [reflexivity|].
    split; [discriminate|]. reflexivity.
  - reflexivity.
  - discriminate.
  - reflexivity.
  - reflexivity.
  - reflexivity.
  - lia.
Defined.

(** X18: update-password takes effect for login: after a successful
    update with a new password of at least 6 characters, a login with the
    user's email succeeds with the new password when bcrypt verifies it
    against the new hash, and a password that bcrypt does not verify
    against the new hash is answered [InvalidCredentials]. *)
Theorem login_after_updatePassword (X : Externals) reqUser cur p salt saveNow
    tnow db s e q tnow' :
  find (byId (_id reqUser)) db = Some s ->
  passwordMatching X cur (password s) = inr true ->
  validIdentity X s -> (6 <= jsLength p)%nat ->
  Some p <> password s ->
  find (byEmail X (Some e)) db = Some s -> e <> "" -> q <> "" ->
  let db' := snd (updatePassword X reqUser cur (Some p) (Some p) salt saveNow
                                 tnow db) in
  (bcrypt_compare X q (bcrypt_hash X p salt) = true ->
   exists u,
     login X (Some e) (Some q) tnow' db'
     = Responded 200
         (mkBody "success" (Some (createToken X tnow' (_id s))) (Some u)
                 None)
     /\ password u = None)
  /\ (bcrypt_compare X q (bcrypt_hash X p salt) = false ->
      login X (Some e) (Some q) tnow' db' = NextError InvalidCredentials).
Proof.
  intros Hf Hm Hvalid Hlen Hnew He Hene Hqne.
  rewrite (updatePassword_valid X reqUser cur p salt saveNow tnow db s
             Hf Hm Hvalid Hlen Hnew). cbn [snd].
  assert (Hi : find (byId (_id s)) db = Some s).
  { pose proof (find_some _ _ Hf) as [_ Hb]. unfold byId in Hb.
    apply String.eqb_eq in Hb. now rewrite Hb. }
  rewrite (login_after_write X e q tnow' db s
             (rehashed (bcrypt_hash X p salt) (saveNow - 1000) s)
             (bcrypt_hash X p salt) Hene Hqne He Hi eq_refl eq_refl).
  split; intros ->; [|reflexivity].
  eexists. split; reflexivity.
Qed.

Lemma login_after_updatePassword_witness :
  (exists u,
      login Ref.X (Some "ann@jobs.hub") (Some "newpass1") 10500
            (snd (updatePassword Ref.X Ref.u1 (Some "oldpass")
                                 (Some "newpass1") (Some "newpass1") "bbbbb"
                                 10000 10001 Ref.db1))
      = Responded 200
          (mkBody "success" (Some (createToken Ref.X 10500 "u1")) (Some u)
                  None)
      /\ password u = None)
  /\ login Ref.X (Some "ann@jobs.hub") (Some "oldpass") 10500
           (snd (updatePassword Ref.X Ref.u1 (Some "oldpass")
                                (Some "newpass1") (Some "newpass1") "bbbbb"
                                10000 10001 Ref.db1))
     = NextError InvalidCredentials.
Proof.
  assert (Hv : validIdentity Ref.X Ref.u1) by (repeat split; reflexivity).
  assert (Hl : (6 <= jsLength "newpass1")%nat) by (vm_compute; lia).
  assert (Hn : Some "newpass1" <> password Ref.u1) by discriminate.
  split.
  - apply (proj1 (login_after_updatePassword Ref.X Ref.u1 (Some "oldpass")
                    "newpass1" "bbbbb" 10000 10001 Ref.db1 Ref.u1
                    "ann@jobs.hub" "newpass1" 10500 eq_refl eq_refl Hv Hl Hn
                    eq_refl ltac:(discriminate) ltac:(discriminate))).
    reflexivity.
  - apply (proj2 (login_after_updatePassword Ref.X Ref.u1 (Some "oldpass")
                    "newpass1" "bbbbb" 10000 10001 Ref.db1 Ref.u1
                    "ann@jobs.hub" "oldpass" 10500 eq_refl eq_refl Hv Hl Hn
                    eq_refl ltac:(discriminate) ltac:(discriminate))).
    reflexivity.
Defined.

(** X19: reset-password takes effect for login: after a reset with a
    matching, unexpired token and a confirmed new password of at least 6
    characters, a login with the user's email succeeds with the new
    password when bcrypt verifies it against the new hash, and is answered
    [InvalidCredentials] with a password that bcrypt does not verify. *)
Theorem login_after_resetPassword (X : Externals) raw p now salt saveNow tnow
    db s e q tnow' :
  uniqueIds db ->
  find (byResetToken (sha256_hex X raw) now) db = Some s ->
  validIdentity X s -> (6 <= jsLength p)%nat ->
  find (byEmail X (Some e)) db = Some s -> e <> "" -> q <> "" ->
  let db' := snd (resetPassword X raw (Some p) (Some p) now salt saveNow tnow
                                db) in
  (bcrypt_compare X q (bcrypt_hash X p salt) = true ->
   exists u,
     login X (Some e) (Some q) tnow' db'
     = Responded 200
         (mkBody "success" (Some (createToken X tnow' (_id s))) (Some u)
                 None)
     /\ password u = None
     /\ passwordResetToken u = None /\ passwordResetExpires u = None)
  /\ (bcrypt_compare X q (bcrypt_hash X p salt) = false ->
      login X (Some e) (Some q) tnow' db' = NextError InvalidCredentials).
Proof.
  intros Hu Hf Hvalid Hlen He Hene Hqne.
  assert (Hi : find (byId (_id s)) db = Some s).
  { apply uniqueIds_find; [exact Hu|]. apply find_some in Hf. tauto. }
  rewrite (resetPassword_valid X raw p now salt saveNow tnow db s
             Hf Hi Hvalid Hlen). cbn [snd].
  rewrite (login_after_write X e q tnow' db s
             (rehashed (bcrypt_hash X p salt) (saveNow - 1000) (cleared s))
             (bcrypt_hash X p salt) Hene Hqne He Hi eq_refl eq_refl).
  split; intros ->; [|reflexivity].
  eexists. repeat split; reflexivity.
Qed.

Lemma login_after_resetPassword_witness :
  exists u,
    login Ref.X (Some "ann@jobs.hub") (Some "newpass1") 3000
          (snd (resetPassword Ref.X "r1" (Some "newpass1") (Some "newpass1")
                              2000 "bbbbb" 2001 2002
                              [issued "sha256:r1" 601000 Ref.u1]))
    = Responded 200
        (mkBody "success" (Some (createToken Ref.X 3000 "u1")) (Some u) None)
    /\ password u = None
    /\ passwordResetToken u = None /\ passwordResetExpires u = None.
Proof.
  apply (proj1 (login_after_resetPassword Ref.X "r1" "newpass1" 2000 "bbbbb"
                  2001 2002 [issued "sha256:r1" 601000 Ref.u1]
                  (issued "sha256:r1" 601000 Ref.u1) "ann@jobs.hub"
                  "newpass1" 3000
                  ltac:(repeat constructor; simpl; tauto) eq_refl
                  ltac:(repeat split; reflexivity) ltac:(simpl; lia)
                  eq_refl ltac:(discriminate) ltac:(discriminate))).
  reflexivity.
Defined.

(** ** Update-password *)

(** X20: update-password writes nothing unless the current password is
    verified: when the user of the request is gone the handler fails with a
    [TypeError], when the current password is absent bcrypt rejects
    ([IllegalArguments]), and when bcrypt does not verify it the answer is
    401 "Your current password is incorrect"; the collection is unchanged
    in all three cases. *)
Theorem updatePassword_requires_current_password (X : Externals) reqUser cur
    p pc salt saveNow tnow db :
  (find (byId (_id reqUser)) db = None ->
   updatePassword X reqUser cur p pc salt saveNow tnow db
   = (NextError TypeError, db))
  /\ (forall s, find (byId (_id reqUser)) db = Some s -> cur = None ->
        updatePassword X reqUser cur p pc salt saveNow tnow db
        = (NextError IllegalArguments, db))
  /\ (forall s c hashed,
        find (byId (_id reqUser)) db = Some s ->
        cur = Some c -> password s = Some hashed ->
        bcrypt_compare X c hashed = false ->
        updatePassword X reqUser cur p pc salt saveNow tnow db
        = (NextError IncorrectCurrentPassword, db)).
Proof.
  unfold updatePassword, findById, findOne. fold (byId (_id reqUser)).
  split; [|split].
  - now intros ->.
  - intros s -> ->. reflexivity.
  - intros s c hashed -> -> Hp Hc. cbn [option_map hydrate fields].
    rewrite Hp. cbn [passwordMatching]. now rewrite Hc.
Qed.

Lemma updatePassword_requires_current_password_witness :
  updatePassword Ref.X Ref.u1 (Some "guess") (Some "newpass1")
                 (Some "newpass1") "bbbbb" 10000 10001 Ref.db1
  = (NextError IncorrectCurrentPassword, Ref.db1)
  /\ updatePassword Ref.X Ref.u1 (Some "oldpass") (Some "newpass1")
                    (Some "newpass1") "bbbbb" 10000 10001 []
     = (NextError TypeError, []).
Proof.
  split.
  - apply (proj2 (proj2 (updatePassword_requires_current_password Ref.X
                           Ref.u1 (Some "guess") (Some "newpass1")
                           (Some "newpass1") "bbbbb" 10000 10001 Ref.db1))
             Ref.u1 "guess" "$2a$12$aaaaa.oldpass"); reflexivity.
  - apply (proj1 (updatePassword_requires_current_password Ref.X
                    Ref.u1 (Some "oldpass") (Some "newpass1")
                    (Some "newpass1") "bbbbb" 10000 10001 [])).
    reflexivity.
Defined.

(** X21: update-password never touches the reset pair: whatever its
    outcome, the user's stored record keeps its reset digest and expiry, so
    a reset token that was pending before the update matches afterwards
    exactly as it did before. *)
Theorem updatePassword_keeps_reset_pair (X : Externals) reqUser cur p pc salt
    saveNow tnow db s :
  find (byId (_id reqUser)) db = Some s ->
  exists s',
    find (byId (_id reqUser))
         (snd (updatePassword X reqUser cur p pc salt saveNow tnow db))
    = Some s'
    /\ passwordResetToken s' = passwordResetToken s
    /\ passwordResetExpires s' = passwordResetExpires s
    /\ forall hashedToken now,
         byResetToken hashedToken now s' = byResetToken hashedToken now s.
Proof.
  intros Hf.
  assert (Hsame : exists s',
             find (byId (_id reqUser))
                  (snd (updatePassword X reqUser cur p pc salt saveNow tnow
                                       db)) = Some s'
             /\ passwordResetToken s' = passwordResetToken s
             /\ passwordResetExpires s' = passwordResetExpires s).
  { unfold updatePassword, findById, findOne. fold (byId (_id reqUser)).
    rewrite Hf. cbn [option_map hydrate fields].
    destruct (passwordMatching X cur (password s)) as [e|[|]];
      cbn [negb snd]; eauto.
    fold (updateDoc p pc s).
    destruct (save X true salt saveNow (updateDoc p pc s) db)
      as [e|[u db']] eqn:Es; cbn [snd]; eauto.
    assert (Hid : _id s = _id reqUser).
    { pose proof (find_some _ _ Hf) as [_ Hb]. unfold byId in Hb.
      now apply String.eqb_eq in Hb. }
    rewrite <- Hid in Hf |- *.
    destruct (save_existing_fields X true salt saveNow (updateDoc p pc s) db
                u db' s) as (s' & Hs' & _ & Ht & Hx); auto.
    - unfold updateDoc. auto with synced.
    - exists s'. now repeat split. }
  destruct Hsame as (s' & Hs' & Ht & Hx).
  exists s'. repeat split; auto.
  intros hashedToken now. unfold byResetToken. now rewrite Ht, Hx.
Qed.

Lemma updatePassword_keeps_reset_pair_witness :
  exists s',
    find (byId "u1")
         (snd (updatePassword Ref.X Ref.u1 (Some "oldpass") (Some "newpass1")
                              (Some "newpass1") "bbbbb" 10000 10001
                              [issued "sha256:r1" 601000 Ref.u1]))
    = Some s'
    /\ passwordResetToken s' = Some "sha256:r1"
    /\ passwordResetExpires s' = Some 601000
    /\ forall hashedToken now,
         byResetToken hashedToken now s'
         = byResetToken hashedToken now (issued "sha256:r1" 601000 Ref.u1).
Proof.
  apply (updatePassword_keeps_reset_pair Ref.X Ref.u1 (Some "oldpass")
           (Some "newpass1") (Some "newpass1") "bbbbb" 10000 10001
           [issued "sha256:r1" 601000 Ref.u1]
           (issued "sha256:r1" 601000 Ref.u1)).
  reflexivity.
Defined.

(** ** What the responses carry *)

(** X22: no response of sign-up, login, forgot-password, reset-password or
    update-password carries a password: whenever a handler answers with a
    body that holds a user, that user has no [password] field. *)
Theorem responses_never_carry_password (X : Externals) db code body u :
  body_user body = Some u ->
  (forall n e p pc newId salt now sent tnow,
      fst (signUp X n e p pc newId salt now sent tnow db)
      = Responded code body -> password u = None)
  /\ (forall e p tnow,
        login X e p tnow db = Responded code body -> password u = None)
  /\ (forall e rb now salt sent,
        fst (forgetPassword X e rb now salt sent db) = Responded code body ->
        password u = None)
  /\ (forall tok p pc now salt saveNow tnow,
        fst (resetPassword X tok p pc now salt saveNow tnow db)
        = Responded code body -> password u = None)
  /\ (forall reqUser cur p pc salt saveNow tnow,
        fst (updatePassword X reqUser cur p pc salt saveNow tnow db)
        = Responded code body -> password u = None).
Proof.
  intros Hu.
  assert (Hsend : forall tnow d c,
             sendTokenResponse X tnow (fields (set_password None d)) c
             = Responded code body -> password u = None).
  { intros tnow d c E. unfold sendTokenResponse in E. inversion E; subst.
    simpl in Hu. inversion Hu. reflexivity. }
  split; [|split; [|split; [|split]]].
  - intros n e p pc newId salt now sent tnow. unfold signUp.
    destruct (create X newId n e p pc salt now db) as [err|[d db']];
      [discriminate|].
    destruct sent; cbn [fst]; apply Hsend.
  - intros e p tnow. unfold login.
    destruct (falsy e || falsy p); [discriminate|].
    destruct (findOne (byEmail X e) true db) as [d|]; [|discriminate].
    destruct (passwordMatching X p (password (fields d))) as [err|[|]];
      cbn [negb]; try discriminate.
    apply Hsend.
  - intros e rb now salt sent. unfold forgetPassword.
    destruct (findOne (byEmail X e) false db) as [d|]; [|discriminate].
    rewrite createPasswordResetToken_doc.
    destruct (save X false salt now _ db) as [err|[d1 db1]];
      [discriminate|].
    destruct sent; cbn [fst].
    + intros E. inversion E; subst. discriminate Hu.
    + destruct (save X false salt now _ db1) as [err|[d2 db2]]; discriminate.
  - intros tok p pc now salt saveNow tnow. unfold resetPassword.
    destruct (findOne _ false db) as [d|]; [|discriminate].
    destruct (save X true salt saveNow _ db) as [err|[d1 db1]];
      [discriminate|].
    cbn [fst]. apply Hsend.
  - intros reqUser cur p pc salt saveNow tnow. unfold updatePassword.
    destruct (findById (_id reqUser) true db) as [d|]; [|discriminate].
    destruct (passwordMatching X cur (password (fields d))) as [err|[|]];
      cbn [negb]; try discriminate.
    destruct (save X true salt saveNow _ db) as [err|[d1 db1]];
      [discriminate|].
    cbn [fst]. apply Hsend.
Qed.

Lemma responses_never_carry_password_witness :
  login Ref.X (Some "ann@jobs.hub") (Some "oldpass") 0 Ref.db1
  = Responded 200
      (mkBody "success" (Some "jwt.u1") (Some (with_password None Ref.u1))
              None)
  /\ password (with_password None Ref.u1) = None.
Proof.
  split; [reflexivity|].
  apply (proj1 (proj2 (responses_never_carry_password Ref.X Ref.db1 200
                         (mkBody "success" (Some "jwt.u1")
                                 (Some (with_password None Ref.u1)) None)
                         (with_password None Ref.u1) eq_refl))
               (Some "ann@jobs.hub") (Some "oldpass") 0).
  reflexivity.
Defined.

(** X23: a successful login answers 200 with a token for the user's id
    and with the stored record as it is, only the password removed: a
    pending reset digest and its expiry are part of the response. *)
Theorem login_returns_record_without_password (X : Externals) e p tnow db s
    hashed :
  e <> "" -> p <> "" ->
  find (byEmail X (Some e)) db = Some s ->
  password s = Some hashed -> bcrypt_compare X p hashed = true ->
  login X (Some e) (Some p) tnow db
  = Responded 200
      (mkBody "success" (Some (createToken X tnow (_id s)))
              (Some (mkUser (_id s) (name s) (email s) None
                            (passwordConfirm s) (role s)
                            (passwordChangedAt s) (passwordResetToken s)
                            (passwordResetExpires s)))
              None).
Proof.
  intros He Hp Hf Hpw Hc.
  now rewrite (login_ok X e p tnow db s hashed He Hp Hf Hpw Hc).
Qed.

Lemma login_returns_record_without_password_witness :
  login Ref.X (Some "ann@jobs.hub") (Some "oldpass") 0
        [issued "sha256:r1" 601000 Ref.u1]
  = Responded 200
      (mkBody "success" (Some "jwt.u1")
              (Some (mkUser "u1" (Some "Ann") (Some "ann@jobs.hub") None None
                            user None (Some "sha256:r1") (Some 601000)))
              None).
Proof.
  apply (login_returns_record_without_password Ref.X "ann@jobs.hub" "oldpass"
           0 [issued "sha256:r1" 601000 Ref.u1]
           (issued "sha256:r1" 601000 Ref.u1) "$2a$12$aaaaa.oldpass");
    try reflexivity; discriminate.
Defined.

(** X24: sign-up, then the gates: after a successful sign-up, [protect]
    forwards every verified, non-empty bearer token whose subject is the
    new id, whatever its issued-at, attaching the new user without
    password; that user has the role [user], so [restrictTo] forwards it
    exactly when "user" is among the permitted roles. *)
Theorem gates_after_signUp (X : Externals) n e p pc newId salt now sent tnow
    db code body db' auth clock t dec :
  signUp X n e p pc newId salt now sent tnow db = (Responded code body, db') ->
  bearerToken auth = Some t -> t <> "" ->
  jwt_verify X t clock = Some dec -> id dec = newId ->
  exists u,
    protect X auth clock db' = Forward u
    /\ _id u = newId /\ password u = None /\ role u = user
    /\ forall permittedRoles,
         restrictTo permittedRoles u = Forward u <-> In "user" permittedRoles.
Proof.
  intros Hs Ht Hne Hv Hid. unfold signUp in Hs.
  destruct (create X newId n e p pc salt now db) as [err|[d db1]] eqn:Ec;
    [discriminate|].
  assert (db1 = db') by (destruct sent; now inversion Hs). subst db1.
  destruct (create_inv X _ _ _ _ _ _ _ _ _ _ Ec)
    as (plain & _ & _ & _ & -> & Hfresh).
  set (rec := signedUp X newId n e plain salt).
  exists (with_password None rec).
  assert (Hf : find (byId (id dec)) (db ++ [rec]) = Some rec).
  { rewrite Hid. apply find_app_last.
    - intros v Hin. apply String.eqb_neq. apply (Hfresh v Hin).
    - apply String.eqb_refl. }
  split.
  - rewrite (protect_verified X auth clock _ t dec Ht Hne Hv), Hf.
    reflexivity.
  - repeat split.
    + intros Hr. unfold restrictTo in Hr. cbn [role with_password rec signedUp
        roleName] in Hr.
      destruct (existsb (fun r => (r =? "user")%string) permittedRoles) eqn:E;
        [|discriminate].
      apply existsb_exists in E as (r & Hin & Hr').
      apply String.eqb_eq in Hr'. now subst r.
    + intros Hin. unfold restrictTo.
      replace (existsb _ permittedRoles) with true; [reflexivity|].
      symmetry. apply existsb_exists. exists "user".
      split; [exact Hin|reflexivity].
Qed.

Lemma gates_after_signUp_witness :
  exists u,
    protect Ref.X (Some "Bearer t9") 20
            (snd (signUp Ref.X (Some "Ann") (Some "ann@jobs.hub")
                         (Some "secret") (Some "secret") "u1" "ccccc" 5 true
                         6 []))
    = Forward u
    /\ _id u = "u1" /\ password u = None /\ role u = user
    /\ forall permittedRoles,
         restrictTo permittedRoles u = Forward u <-> In "user" permittedRoles.
Proof.
  eapply (gates_after_signUp Ref.X (Some "Ann") (Some "ann@jobs.hub")
            (Some "secret") (Some "secret") "u1" "ccccc" 5 true 6 []
            _ _ _ (Some "Bearer t9") 20 "t9" (mkDecoded "u1" 9)).
  - reflexivity.
  - reflexivity.
  - discriminate.
  - reflexivity.
  - reflexivity.
Defined.
